(** * policoop_ems: transport requests and inventory lines

    A shallow embedding of [policoop_ems.py], the emergency-transport module
    written on top of the Tryton framework, together with the properties of
    its record contracts.

    The module's own code is embedded function by function.  What the
    framework supplies (the record store, the sequence generator, the unit
    converter, the stock-movement subsystem) appears either as a small
    executable model of the documented behaviour or as a parameter of the
    section that uses it. *)

From Stdlib Require Import ZArith String.
From Stdlib Require Import Floats.SpecFloat.
From stdpp Require Import gmap strings list fin_maps pretty.

Open Scope string_scope.
Open Scope Z_scope.

(** ** Python values *)

Module Py.

(** [decimal.Decimal], finite values only: sign, coefficient and exponent
    ([_sign], [_int], [_exp]).  The coefficient is kept as a number, its
    digit string being the canonical one without leading zeros. *)
Record Decimal := mkDecimal { d_sign : bool; d_int : N; d_exp : Z }.

(** [Decimal.__bool__]: a finite decimal is true unless it is zero. *)
Definition Decimal_bool (d : Decimal) : bool := negb (d_int d =? 0)%N.

Fixpoint zeros (n : nat) : string :=
  match n with
  | O => ""
  | S k => "0" +:+ zeros k
  end.

(** The format ["%+d"]. *)
Definition signed_int (z : Z) : string :=
  if z <? 0 then pretty z else "+" +:+ pretty z.

(** [Decimal.__str__] (scientific notation, capitals on). *)
Definition Decimal_str (d : Decimal) : string :=
  let sign := if d_sign d then "-" else "" in
  let _int := pretty (d_int d) in
  let len := Z.of_nat (String.length _int) in
  let leftdigits := d_exp d + len in
  let dotplace :=
    if (d_exp d <=? 0) && (-6 <? leftdigits) then leftdigits else 1 in
  let parts :=
    if dotplace <=? 0 then
      ("0", "." +:+ zeros (Z.to_nat (- dotplace)) +:+ _int)
    else if len <=? dotplace then
      (_int +:+ zeros (Z.to_nat (dotplace - len)), "")
    else
      (substring 0 (Z.to_nat dotplace) _int,
       "." +:+ substring (Z.to_nat dotplace) (Z.to_nat (len - dotplace)) _int) in
  let exp :=
    if leftdigits =? dotplace then ""
    else "E" +:+ signed_int (leftdigits - dotplace) in
  sign +:+ fst parts +:+ snd parts +:+ exp.

(** The values a record field or a dictionary entry holds. *)
Inductive Value :=
| VNone
| VBool (b : bool)
| VInt (z : Z)
| VStr (s : string)
| VDec (d : Decimal)
| VDateTime (t : Z).

#[export] Instance Decimal_eq_dec : EqDecision Decimal.
Proof. solve_decision. Defined.

#[export] Instance Value_eq_dec : EqDecision Value.
Proof. solve_decision. Defined.

(** Truth value of an object, as tested by [if], [not] and [and]. *)
Definition truthy (v : Value) : bool :=
  match v with
  | VNone => false
  | VBool b => b
  | VInt z => negb (z =? 0)
  | VStr s => negb (String.eqb s "")
  | VDec d => Decimal_bool d
  | VDateTime _ => true
  end.

(** [d.get(k)]: the entry, or [None] when the key is absent. *)
Definition get (d : gmap string Value) (k : string) : Value :=
  default VNone (d !! k).

(** Exceptions raised by the module or by the framework under it. *)
Inductive Error :=
| AttributeError (attr : string)
| NameError (name : string)
| UserError (msg : string)
| RequiredError (field : string)
| ConstraintError (name : string).

End Py.
Import Py.

(** ** Services of the framework *)

(** [ir.sequence]: [get_id] takes the id of a sequence and returns its next
    value, or raises when the sequence cannot be found.  The numbering state
    is the service's own. *)
Class SequenceService := {
  SeqState : Type;
  Sequence_get_id : Z → SeqState → Error + (string * SeqState)
}.

(** Python floats: IEEE 754 binary64, as specified by [SpecFloat]. *)
Abbreviation float := spec_float.

Definition float_of_Z (z : Z) : float := binary_normalize 53 1024 z 0 false.

(** [product.uom]: [compute_qty(from_uom, qty, to_uom)] converts a quantity
    between two units.  The module only ever converts a quantity from a unit
    into that same unit, where the service raises nothing. *)
Class UomService := {
  Uom : Type;
  Uom_compute_qty : Uom → float → Uom → float
}.

(** A row of [stock.move], as far as this module reads and writes it: the
    workflow state and the stored form of the polymorphic [origin]
    reference, ["<model name>,<record id>"]. *)
Record MoveRow := mkMoveRow {
  move_state : string;
  move_origin : option string
}.

(** [stock.move]: the two class methods the module calls, on the table of
    movements keyed by record id. *)
Class StockMoveService := {
  Move_cancel : list Z → gmap Z MoveRow → Error + gmap Z MoveRow;
  Move_delete : list Z → gmap Z MoveRow → Error + gmap Z MoveRow
}.

(** ** Transport requests ([policoop.transport_request]) *)

Module TransportRequest.

(** *** The map link *)

(** The two coordinates an editing session holds; [None] is an unset
    field. *)
Record Coordinates := mkCoordinates {
  latitude : option Decimal;
  longitude : option Decimal
}.

Definition field_value (o : option Decimal) : Value :=
  match o with
  | None => VNone
  | Some d => VDec d
  end.

(** [str] of a coordinate field. *)
Definition str (o : option Decimal) : string :=
  match o with
  | None => "None"
  | Some d => Decimal_str d
  end.

(** [on_change_with_urladdr]: the link is built only when the test
    [self.latitude and self.longitude] is true. *)
Definition on_change_with_urladdr (self : Coordinates) : string :=
  let ret_url := "" in
  if truthy (field_value (latitude self)) && truthy (field_value (longitude self))
  then "http://openstreetmap.org/?mlat=" +:+ str (latitude self)
       +:+ "&mlon=" +:+ str (longitude self)
  else ret_url.

(** The link as the specification words it: the template whenever both
    fields are set, the empty string otherwise. *)
Definition urladdr_spec (self : Coordinates) : string :=
  match latitude self, longitude self with
  | Some lat, Some lon =>
      "http://openstreetmap.org/?mlat=" +:+ Decimal_str lat
      +:+ "&mlon=" +:+ Decimal_str lon
  | _, _ => ""
  end.

(** A point on the equator: latitude [Decimal('0')], longitude
    [Decimal('-78.5')]. *)
Definition equator : Coordinates :=
  mkCoordinates (Some (mkDecimal false 0 0)) (Some (mkDecimal true 785 (-1))).

(** *** The store *)

Section Store.
Context `{SequenceService}.

(** The singleton row of [policoop.sequences]; the reference to the
    sequence is a record id or nothing. *)
Record PolicoopSequences := mkPolicoopSequences {
  transport_request_code_sequence : option Z
}.

(** What a transaction sees: the configuration row (if any), the numbering
    state, the table of requests keyed by record id, the clock and the
    health professional of the session. *)
Record DB := mkDB {
  sequences : option PolicoopSequences;
  ir_sequence : SeqState;
  transport_request : gmap Z (gmap string Value);
  clock : Z;
  health_professional : Value
}.

Definition set_ir_sequence (st : SeqState) (db : DB) : DB :=
  mkDB (sequences db) st (transport_request db) (clock db) (health_professional db).

Definition set_transport_request (t : gmap Z (gmap string Value)) (db : DB) : DB :=
  mkDB (sequences db) (ir_sequence db) t (clock db) (health_professional db).

(** Computations in a transaction: a result or an exception, and the store
    as it stands at that point.  Rolling back after an exception is the
    caller's business. *)
Definition M (A : Type) : Type := DB → (Error + A) * DB.

Definition ret {A} (a : A) : M A := λ db, (inr a, db).

Definition raise {A} (e : Error) : M A := λ db, (inl e, db).

Definition bind {A B} (m : M A) (k : A → M B) : M B :=
  λ db, match m db with
        | (inl e, db') => (inl e, db')
        | (inr a, db') => k a db'
        end.

Notation "'let*' x ':=' m 'in' k" := (bind m (λ x, k))
  (at level 10, x name, m at level 100, k at level 200, only parsing).

Fixpoint mapM {A B} (f : A → M B) (l : list A) : M (list B) :=
  match l with
  | [] => ret []
  | a :: l' =>
      let* b := f a in
      let* bs := mapM f l' in
      ret (b :: bs)
  end.

(** [Config(1)]: the singleton read through the model.  With no row in the
    table the model answers with the defaults of its fields, and the
    sequence reference has none. *)
Definition Config (id : Z) : M PolicoopSequences :=
  λ db, (inr (default (mkPolicoopSequences None) (sequences db)), db).

(** [r.id] on the value of a many-to-one field. *)
Definition record_id (r : option Z) : M Z :=
  match r with
  | Some i => ret i
  | None => raise (AttributeError "id")
  end.

(** [Sequence.get_id(seq)] on the numbering state of the store. *)
Definition get_id (seq : Z) : M string :=
  λ db, match Sequence_get_id seq (ir_sequence db) with
        | inl e => (inl e, db)
        | inr (code, st) => (inr code, set_ir_sequence st db)
        end.

(** The defaults of the model. *)
Definition default_request_date (db : DB) : Value := VDateTime (clock db).

Definition default_operator (db : DB) : Value := health_professional db.

Definition default_state : Value := VStr "open".

Definition default_get (db : DB) : gmap string Value :=
  {[ "request_date" := default_request_date db;
     "operator" := default_operator db;
     "state" := default_state ]}.

(** Fields declared [required=True]. *)
Definition required_fields : list string := ["request_date"; "return_date"].

Definition missing_required (row : gmap string Value) : option string :=
  List.find (λ f, bool_decide (get row f = VNone)) required_fields.

(** The constraint [code_uniq] of [__setup__]: [Unique(t, t.code)].  As in
    SQL, rows without a code never clash. *)
Definition code_taken (t : gmap Z (gmap string Value)) (row : gmap string Value) : bool :=
  match get row "code" with
  | VNone => false
  | c => bool_decide (map_Exists (λ _ r, get r "code" = c) t)
  end.

(** The framework's [create] for one record: defaults fill the fields the
    caller left out, required fields and the unique constraint are
    checked, and the row is stored under a fresh id. *)
Definition insert_row (values : gmap string Value) : M Z :=
  λ db,
    let row := values ∪ default_get db in
    match missing_required row with
    | Some f => (inl (RequiredError f), db)
    | None =>
        if code_taken (transport_request db) row
        then (inl (ConstraintError "code_uniq"), db)
        else
          let id := fresh (dom (transport_request db)) in
          (inr id, set_transport_request (<[id := row]> (transport_request db)) db)
    end.

Definition ModelSQL_create (vlist : list (gmap string Value)) : M (list Z) :=
  mapM insert_row vlist.

(** The framework's [write]: the given columns are set on every listed
    record.  When a listed record has no row the framework raises
    [write_error] and nothing is written. *)
Definition ModelSQL_write (ids : list Z) (values : gmap string Value) : M unit :=
  λ db,
    if bool_decide (Forall (λ id, is_Some (transport_request db !! id)) ids)
    then
      (inr tt,
       set_transport_request
         (foldr (λ id t, alter (λ row, values ∪ row) id t) (transport_request db) ids)
         db)
    else (inl (UserError "write_error"), db).

(** *** The module's operations *)

(** One turn of the loop of [create]. *)
Definition assign_code (values : gmap string Value) : M (gmap string Value) :=
  if negb (truthy (get values "code")) then
    let* config := Config 1 in
    let* seq := record_id (transport_request_code_sequence config) in
    let* code := get_id seq in
    ret (<["code" := VStr code]> values)
  else ret values.

(** [x.copy()]: dictionaries are values here, and the copy of one is that
    dictionary. *)
Definition copy (x : gmap string Value) : gmap string Value := x.

(** [TransportRequest.create] *)
Definition create (vlist : list (gmap string Value)) : M (list Z) :=
  let vlist := copy <$> vlist in
  let* vlist := mapM assign_code vlist in
  ModelSQL_create vlist.

(** [open_support] and [close_support] *)
Definition open_support (srs : list Z) : M unit :=
  ModelSQL_write srs {[ "state" := VStr "open" ]}.

Definition close_support (srs : list Z) : M unit :=
  ModelSQL_write srs {[ "state" := VStr "closed" ]}.

(** The configuration row is missing, or its sequence reference is
    unset. *)
Definition unconfigured (db : DB) : Prop :=
  sequences db = None ∨ sequences db = Some (mkPolicoopSequences None).

(** The values the selection of [state] admits. *)
Definition state_selection : list Value := [VNone; VStr "open"; VStr "closed"].

(** What the loop of [create] makes of one dictionary of values: it is
    kept when it has a code, and gets the next value of the configured
    sequence otherwise. *)
Definition assigned (config : option PolicoopSequences)
    (v v' : gmap string Value) : Prop :=
  (truthy (get v "code") = true ∧ v' = v) ∨
  (truthy (get v "code") = false ∧
   ∃ seq c st st',
     config = Some (mkPolicoopSequences (Some seq)) ∧
     Sequence_get_id seq st = inr (c, st') ∧
     v' = <["code" := VStr c]> v).

(** The row [id] holds [row], and no other row has its code. *)
Definition holds (t : gmap Z (gmap string Value)) (id : Z) (row : gmap string Value) : Prop :=
  t !! id = Some row ∧
  (get row "code" ≠ VNone →
   ∀ id' row', t !! id' = Some row' → get row' "code" = get row "code" → id' = id).

(** The stored state of a record. *)
Definition state_of (db : DB) (id : Z) : option Value :=
  r ← transport_request db !! id; Some (get r "state").

End Store.

(** *** Invariants and buttons *)

(** No two rows share a code: the constraint [code_uniq] as a property of
    the whole table. *)
Definition codes_unique (t : gmap Z (gmap string Value)) : Prop :=
  ∀ id1 id2 r1 r2,
    t !! id1 = Some r1 → t !! id2 = Some r2 →
    get r1 "code" ≠ VNone → get r1 "code" = get r2 "code" → id1 = id2.

(** The PYSON expressions [__setup__] uses, evaluated on the values of a
    record, where every field has a value and an empty field has [None]. *)
Inductive PYSON :=
| Eval (name : string)
| Const (v : Value)
| Equal (s1 s2 : PYSON).

Fixpoint pyson_eval (record : gmap string Value) (e : PYSON) : Value :=
  match e with
  | Eval name => get record name
  | Const v => v
  | Equal s1 s2 => VBool (bool_decide (pyson_eval record s1 = pyson_eval record s2))
  end.

(** [cls._buttons.update(...)]: the [invisible] attribute of each button. *)
Definition _buttons : gmap string PYSON :=
  {[ "open_support" := Equal (Eval "state") (Const (VStr "open"));
     "close_support" := Equal (Eval "state") (Const (VStr "closed")) ]}.

(** A button is hidden on a record when its [invisible] attribute
    evaluates to a true value. *)
Definition invisible (button : string) (record : gmap string Value) : bool :=
  match _buttons !! button with
  | Some e => truthy (pyson_eval record e)
  | None => false
  end.

End TransportRequest.


(** ** Inventory lines ([policoop.transport.line]) *)

Module InventoryLine.

Definition __name__ : string := "policoop.transport.line".

(** The stored form of a reference field: ['%s,%s' % (name, id)]. *)
Definition reference (name : string) (id : Z) : string :=
  name +:+ "," +:+ pretty id.

(** *** Movements derived from a line *)

Section GetMove.
Context `{UomService}.

Record Product := mkProduct {
  product_id : Z;
  default_uom : Uom
}.

(** The record [get_move] expects behind [self.inventory]: the two
    locations, the company and the date of a stock-taking context. *)
Record Inventory := mkInventory {
  location : Z;
  lost_found : Z;
  company : Z;
  date : Z
}.

(** A line as the class declares it: the stored fields [product] and
    [quantity], besides the record id. *)
Record Line := mkLine {
  id : Z;
  product : Product;
  quantity : float
}.

(** The names an instance answers to as fields: those every model has and
    those [InventoryLine] declares. *)
Definition _fields : list string :=
  [ "id"; "create_uid"; "create_date"; "write_uid"; "write_date"; "rec_name";
    "product"; "uom"; "unit_digits"; "quantity"; "moves" ].

(** [self.inventory]: the class declares no field of that name, and the
    model raises [AttributeError] for a name that is not a field.  The type
    of the result is the one the rest of [get_move] reads the value at. *)
Definition self_inventory (self : Line) : Error + Inventory :=
  inl (AttributeError "inventory").

(** [get_uom]: the function field [uom] is the default unit of the
    product. *)
Definition uom (self : Line) : Uom := default_uom (product self).

(** The unsaved [stock.move] instance [get_move] builds. *)
Record Move := mkMove {
  from_location : Z;
  to_location : Z;
  move_quantity : float;
  move_product : Product;
  move_uom : Uom;
  move_company : Z;
  effective_date : Z;
  origin : Line
}.

Definition zero : float := S754_zero false.

(** The signed quantity [get_move] starts from. *)
Definition delta (self : Line) : float :=
  Uom_compute_qty (uom self) (SFopp (quantity self)) (uom self).

(** The statements of [get_move] after the test for zero, given the value
    of [self.inventory]. *)
Definition build_move (inventory : Inventory) (self : Line) : Move :=
  let delta_qty := delta self in
  let from_location := location inventory in
  let to_location := lost_found inventory in
  let '(from_location, to_location, delta_qty) :=
    if SFltb delta_qty zero
    then (to_location, from_location, SFopp delta_qty)
    else (from_location, to_location, delta_qty) in
  mkMove from_location to_location delta_qty (product self) (uom self)
    (company inventory) (date inventory) self.

(** [get_move]: nothing for a zero delta; otherwise [self.inventory] is
    read, first at [self.inventory.location]. *)
Definition get_move (self : Line) : Error + option Move :=
  let delta_qty := delta self in
  if SFeqb delta_qty zero then inr None
  else
    match self_inventory self with
    | inl e => inl e
    | inr inventory => inr (Some (build_move inventory self))
    end.

End GetMove.

(** *** Cancelling the movements of lines *)

Section CancelMove.
Context `{StockMoveService}.

(** [l.moves]: the one-to-many field over [origin], the movements whose
    origin is the line with id [l]. *)
Definition moves (t : gmap Z MoveRow) (l : Z) : list Z :=
  (map_to_list (filter (λ p, move_origin p.2 = Some (reference __name__ l)) t)).*1.

(** Truth value of a list. *)
Definition nonempty {A} (l : list A) : bool :=
  match l with
  | [] => false
  | _ => true
  end.

(** [[m for l in lines for m in l.moves if l.moves]] *)
Definition collected (t : gmap Z MoveRow) (lines : list Z) : list Z :=
  l ← lines; m ← moves t l; if nonempty (moves t l) then [m] else [].

(** [cancel_move], on the ids of the lines *)
Definition cancel_move (lines : list Z) (t : gmap Z MoveRow) : Error + gmap Z MoveRow :=
  let moves := collected t lines in
  match Move_cancel moves t with
  | inl e => inl e
  | inr t' => Move_delete moves t'
  end.

End CancelMove.

(** *** Registering the table *)

(** The table of lines as the migration sees it: its columns, its
    constraints, and for each row the id and the legacy [move] value. *)
Record Table := mkTable {
  columns : gset string;
  constraints : gset string;
  rows : list (Z * option Z)
}.

Record Database := mkDatabase {
  line_table : Table;
  move_table : gmap Z MoveRow
}.

(** The names bound in the module's namespace when a method runs: the
    attributes every module has, the names of the [import] statements,
    [__all__] and the five classes. *)
Definition module_globals : list string :=
  [ "__name__"; "__doc__"; "__package__"; "__loader__"; "__spec__";
    "__file__"; "__cached__"; "__builtins__";
    "datetime"; "timedelta"; "date"; "backend";
    "Eval"; "Not"; "Bool"; "PYSONEncoder"; "Equal";
    "ModelView"; "ModelSingleton"; "ModelSQL"; "fields"; "Unique"; "Check";
    "Pool"; "Transaction"; "__all__";
    "PolicoopSequences"; "TransportRequest"; "AmbulanceTransport";
    "TransportHealthProfessional"; "InventoryLine" ].

(** Looking up a name that is neither a local of the method nor a builtin:
    it must be a global of the module. *)
Definition lookup_global (globals : list string) (name : string) : Error + unit :=
  if bool_decide (name ∈ globals) then inr tt else inl (NameError name).

(** The columns of the stored fields and the constraint of [__setup__],
    which the framework's [__register__] creates when they are missing. *)
Definition declared_columns : gset string :=
  {[ "id"; "create_uid"; "create_date"; "write_uid"; "write_date";
     "product"; "quantity" ]}.

Definition super_register (t : Table) : Table :=
  mkTable (columns t ∪ declared_columns) (constraints t ∪ {[ "check_line_qty_pos" ]}) (rows t).

Definition drop_constraint (name : string) (t : Table) : Table :=
  mkTable (columns t) (constraints t ∖ {[ name ]}) (rows t).

Definition column_exist (name : string) (t : Table) : bool :=
  bool_decide (name ∈ columns t).

(** Dropping the legacy column takes its values with it. *)
Definition drop_move_column (t : Table) : Table :=
  mkTable (columns t ∖ {[ "move" ]}) (constraints t) ((λ r, (r.1, None)) <$> rows t).

(** [SELECT id, move ... WHERE move IS NOT NULL] followed by [fetchall]. *)
Definition fetchall (t : Table) : list (Z * Z) :=
  omap (λ r, m ← r.2; Some (r.1, m)) (rows t).

(** [UPDATE stock_move SET origin = v WHERE id = move_id] *)
Definition update_origin (v : string) (move_id : Z) (mt : gmap Z MoveRow) : gmap Z MoveRow :=
  alter (λ m, mkMoveRow (move_state m) (Some v)) move_id mt.

(** The loop over the fetched rows. *)
Definition rewrite_origins (fetched : list (Z * Z)) (mt : gmap Z MoveRow) : gmap Z MoveRow :=
  foldl (λ mt r, update_origin (reference __name__ r.1) r.2 mt) mt fetched.

(** [__register__], run in a module namespace [globals].  The name [Null]
    is read while the arguments of [select] are evaluated, before any
    statement of the branch reaches the database. *)
Definition __register__ (globals : list string) (db : Database) : (Error + unit) * Database :=
  let table := drop_constraint "inventory_product_uniq" (super_register (line_table db)) in
  let db := mkDatabase table (move_table db) in
  if column_exist "move" table then
    match lookup_global globals "Null" with
    | inl e => (inl e, db)
    | inr _ =>
        let mt := rewrite_origins (fetchall table) (move_table db) in
        (inr tt, mkDatabase (drop_move_column table) mt)
    end
  else (inr tt, db).

(** *** The constraint and the fields in an editing session *)

Section Fields.
Context `{UomService}.

(** The digits of a unit of measure ([product.uom.digits]). *)
Variable digits : Uom → Z.

(** [default_unit_digits] *)
Definition default_unit_digits : Z := 2.

(** [get_unit_digits] *)
Definition get_unit_digits (self : Line) : Z := digits (default_uom (product self)).

(** The fields [on_change_product] reads and writes while a line is being
    edited; the product and the unit may still be empty. *)
Record Form := mkForm {
  form_product : option Product;
  form_uom : option Uom;
  form_unit_digits : Z
}.

(** [on_change_product] *)
Definition on_change_product (self : Form) : Form :=
  let self := mkForm (form_product self) (form_uom self) 2 in
  match form_product self with
  | Some product =>
      let self := mkForm (form_product self) (Some (default_uom product))
                    (form_unit_digits self) in
      mkForm (form_product self) (form_uom self) (digits (default_uom product))
  | None => self
  end.

End Fields.

(** *** The key of a line *)






End InventoryLine.

(** ** A concrete installation, for running the operations *)

Module Sample.
Import TransportRequest InventoryLine.

(** An incremental numbering service: each sequence has a next number,
    and its values are that number after the prefix [TR]. *)
#[export] Instance incremental : SequenceService := {|
  SeqState := gmap Z Z;
  Sequence_get_id seq st :=
    match st !! seq with
    | None => inl (UserError "missing")
    | Some n => inr ("TR" +:+ pretty n, <[seq := n + 1]> st)
    end
|}.

(** Sequence 7 is configured and counts from 1; two requests are on file,
    the first closed and the second open. *)
Definition db0 : DB :=
  mkDB (Some (mkPolicoopSequences (Some 7)))
       ({[ 7 := 1 ]} : gmap Z Z)
       {[ 1 := {[ "code" := VStr "A1"; "state" := VStr "closed";
                  "request_date" := VDateTime 10; "return_date" := VDateTime 20 ]};
          2 := {[ "code" := VStr "A2"; "state" := VStr "open";
                  "request_date" := VDateTime 30; "return_date" := VDateTime 40 ]} ]}
       100 (VInt 3).

(** The same installation with the configuration row absent, and with the
    row present but its reference unset. *)
Definition db_no_config : DB :=
  mkDB None (ir_sequence db0) (transport_request db0) 100 (VInt 3).

Definition db_unset : DB :=
  mkDB (Some (mkPolicoopSequences None)) (ir_sequence db0) (transport_request db0) 100 (VInt 3).

(** A request as the client sends it, without code and without state. *)
Definition call : gmap string Value :=
  {[ "return_date" := VDateTime 200; "address" := VStr "Ruta 5 km 12" ]}.

(** A converter for which a quantity converted into its own unit comes
    back as it is; units are named by their record ids. *)
#[export] Instance same_unit : UomService := {|
  Uom := Z;
  Uom_compute_qty _ qty _ := qty
|}.

Definition gauze : Product := mkProduct 41 1.

Definition depot : Inventory := mkInventory 10 20 1 20170301.

Definition line (qty : float) : Line := mkLine 8 gauze qty.

(** A stock subsystem in which [cancel] moves draft, assigned and staging
    movements to the state [cancel], and [delete] refuses movements that
    are neither draft nor cancelled. *)
Definition cancel_row (m : MoveRow) : MoveRow :=
  if bool_decide (move_state m ∈ ["draft"; "assigned"; "staging"])
  then mkMoveRow "cancel" (move_origin m)
  else m.

Definition deletable (t : gmap Z MoveRow) (id : Z) : bool :=
  match t !! id with
  | Some m => bool_decide (move_state m ∈ ["draft"; "cancel"])
  | None => true
  end.

#[export] Instance stock : StockMoveService := {|
  Move_cancel ids t := inr (foldr (alter cancel_row) t ids);
  Move_delete ids t :=
    if forallb (deletable t) ids
    then inr (foldr delete t ids)
    else inl (UserError "del_draft_cancel")
|}.

(** Three movements: two of line 8, one of line 9. *)
Definition stock_moves : gmap Z MoveRow :=
  {[ 1 := mkMoveRow "draft" (Some "policoop.transport.line,8");
     2 := mkMoveRow "assigned" (Some "policoop.transport.line,8");
     3 := mkMoveRow "draft" (Some "policoop.transport.line,9") ]}.

(** A table of lines that still has the legacy column: line 8 points at
    movement 1, line 9 at nothing. *)
Definition legacy : Database :=
  mkDatabase
    (mkTable {[ "id"; "product"; "quantity"; "move" ]}
             {[ "inventory_product_uniq" ]}
             [ (8, Some 1); (9, None) ])
    {[ 1 := mkMoveRow "done" None ]}.

(** Units counted to two decimals, except unit 2, counted in whole
    pieces. *)
Definition sample_digits (u : @Uom same_unit) : Z := if (u : Z) =? 2 then 0 else 2.

(** The first request on file. *)
Definition request1 : gmap string Value :=
  {[ "code" := VStr "A1"; "state" := VStr "closed";
     "request_date" := VDateTime 10; "return_date" := VDateTime 20 ]}.

(** A place in Buenos Aires: latitude [Decimal('-34.6')], longitude
    [Decimal('-58.4')]. *)
Definition obelisco : Coordinates :=
  mkCoordinates (Some (mkDecimal true 346 (-1))) (Some (mkDecimal true 584 (-1))).

(** A table of lines created by this module, which never had the legacy
    column. *)
Definition current : Database :=
  mkDatabase
    (mkTable {[ "id"; "product"; "quantity" ]} ∅ [ (8, None); (9, None) ])
    {[ 1 := mkMoveRow "done" (Some "policoop.transport.line,8") ]}.

(** A line being edited, with the product chosen. *)
Definition editing : Form := mkForm (Some gauze) None 0.


End Sample.


(** * Properties *)

Import TransportRequest InventoryLine.

(** ** The map link *)

Example Decimal_str_zero : Decimal_str (mkDecimal false 0 0) = "0".
Proof. reflexivity. Qed.

Example Decimal_str_fraction : Decimal_str (mkDecimal true 785 (-1)) = "-78.5".
Proof. reflexivity. Qed.

Example Decimal_str_leading_zeros : Decimal_str (mkDecimal false 5 (-3)) = "0.005".
Proof. reflexivity. Qed.

Example Decimal_str_exponent : Decimal_str (mkDecimal false 12 3) = "1.2E+4".
Proof. reflexivity. Qed.

(** With a coordinate unset the link is empty. *)
Lemma urladdr_unset (self : Coordinates) :
  latitude self = None ∨ longitude self = None →
  on_change_with_urladdr self = "".
Proof.
  unfold on_change_with_urladdr.
  intros [-> | ->]; simpl; [done |].
  by rewrite andb_false_r.
Qed.

(** With both coordinates set and different from zero the link is the
    template. *)
Lemma urladdr_nonzero (self : Coordinates) lat lon :
  latitude self = Some lat → longitude self = Some lon →
  d_int lat ≠ 0%N → d_int lon ≠ 0%N →
  on_change_with_urladdr self = urladdr_spec self.
Proof.
  intros Hlat Hlon Hnz1 Hnz2.
  unfold on_change_with_urladdr, urladdr_spec.
  rewrite Hlat, Hlon. simpl. unfold Decimal_bool.
  apply N.eqb_neq in Hnz1, Hnz2. by rewrite Hnz1, Hnz2.
Qed.

(** A coordinate that is set to zero counts as unset. *)
Lemma urladdr_zero (self : Coordinates) lat lon :
  latitude self = Some lat → longitude self = Some lon →
  d_int lat = 0%N ∨ d_int lon = 0%N →
  on_change_with_urladdr self = "".
Proof.
  intros Hlat Hlon Hz.
  unfold on_change_with_urladdr. rewrite Hlat, Hlon. simpl. unfold Decimal_bool.
  destruct Hz as [-> | ->]; simpl; [done |].
  by rewrite andb_false_r.
Qed.

(** C2: on the equator (latitude 0, longitude -78.5) both coordinates are
    set, the link asked for is the template filled with the two values, and
    [on_change_with_urladdr] returns the empty string. *)
Theorem urladdr_equator :
  latitude equator = Some (mkDecimal false 0 0) ∧
  longitude equator = Some (mkDecimal true 785 (-1)) ∧
  urladdr_spec equator = "http://openstreetmap.org/?mlat=0&mlon=-78.5" ∧
  on_change_with_urladdr equator = "".
Proof. repeat split. Qed.

(** ** Creating and switching requests *)

Section TransportRequestFacts.
Context `{SequenceService}.

Lemma bind_inr {A B} (m : M A) (k : A → M B) db b db' :
  bind m k db = (inr b, db') →
  ∃ a db1, m db = (inr a, db1) ∧ k a db1 = (inr b, db').
Proof.
  unfold bind. destruct (m db) as [[e | a] db1]; [done |]. eauto.
Qed.

Lemma bind_inl {A B} (m : M A) (k : A → M B) db e db' :
  m db = (inl e, db') → bind m k db = (inl e, db').
Proof. unfold bind. by intros ->. Qed.

Lemma bind_step {A B} (m : M A) (k : A → M B) db a db1 :
  m db = (inr a, db1) → bind m k db = k a db1.
Proof. unfold bind. by intros ->. Qed.

Lemma copy_vlist (vlist : list (gmap string Value)) : copy <$> vlist = vlist.
Proof. apply list_fmap_id. Qed.

(** *** The configuration is missing *)

Lemma assign_code_explicit v db :
  truthy (get v "code") = true → assign_code v db = (inr v, db).
Proof. unfold assign_code. by intros ->. Qed.

Lemma assign_code_unconfigured v db :
  unconfigured db → truthy (get v "code") = false →
  assign_code v db = (inl (AttributeError "id"), db).
Proof.
  intros Hconf Hcode. unfold assign_code. rewrite Hcode. simpl.
  unfold bind, Config. by destruct Hconf as [-> | ->].
Qed.

Lemma assign_codes_unconfigured vlist db :
  unconfigured db →
  Exists (λ v, truthy (get v "code") = false) vlist →
  mapM assign_code vlist db = (inl (AttributeError "id"), db).
Proof.
  intros Hconf. induction 1 as [v l Hv | v l Hex IH]; simpl.
  - apply bind_inl. by apply assign_code_unconfigured.
  - destruct (truthy (get v "code")) eqn:Hv.
    + rewrite (bind_step _ _ _ _ _ (assign_code_explicit v db Hv)).
      by apply bind_inl.
    + apply bind_inl. by apply assign_code_unconfigured.
Qed.

(** C8: when the configuration row is missing, or is there with its
    sequence reference unset, creating a list of requests one of which has
    no code raises an exception, and the store is left exactly as it was:
    no record has been written. *)
Theorem create_unconfigured vlist db :
  unconfigured db →
  Exists (λ v, truthy (get v "code") = false) vlist →
  create vlist db = (inl (AttributeError "id"), db).
Proof.
  intros Hconf Hex. unfold create. rewrite copy_vlist.
  apply bind_inl. by apply assign_codes_unconfigured.
Qed.


(** *** Switching the state *)

Lemma write_inr (values : gmap string Value) srs db :
  Forall (λ id, is_Some (transport_request db !! id)) srs →
  ModelSQL_write srs values db =
    (inr tt,
     set_transport_request
       (foldr (λ id t, alter (λ row, values ∪ row) id t) (transport_request db) srs)
       db).
Proof. intros Hall. unfold ModelSQL_write. by rewrite bool_decide_eq_true_2. Qed.

Lemma write_inl (values : gmap string Value) srs db :
  ¬ Forall (λ id, is_Some (transport_request db !! id)) srs →
  ModelSQL_write srs values db = (inl (UserError "write_error"), db).
Proof. intros Hnot. unfold ModelSQL_write. by rewrite bool_decide_eq_false_2. Qed.

Lemma state_of_alter (values : gmap string Value) v t db id j :
  values !! "state" = Some v →
  state_of (set_transport_request t db) id = Some v →
  state_of (set_transport_request (alter (λ row, values ∪ row) j t) db) id = Some v.
Proof.
  unfold state_of. simpl. intros Hv Hid.
  destruct (decide (j = id)) as [-> | Hne].
  - rewrite lookup_alter_eq.
    destruct (t !! id) as [row |]; simpl in *; [| done].
    unfold get. by rewrite (lookup_union_Some_l _ _ _ _ Hv).
  - by rewrite lookup_alter_ne.
Qed.

Lemma write_keeps_state (values : gmap string Value) v srs db id :
  values !! "state" = Some v →
  state_of db id = Some v →
  state_of (ModelSQL_write srs values db).2 id = Some v.
Proof.
  intros Hv Hid.
  destruct (decide (Forall (λ id, is_Some (transport_request db !! id)) srs))
    as [Hall | Hnot].
  - rewrite write_inr by done. simpl. clear Hall.
    induction srs as [| j srs IH]; simpl.
    + by destruct db.
    + by apply state_of_alter.
  - by rewrite write_inl.
Qed.

(** The actions do set the state of the records they are given. *)
Lemma write_sets_state (values : gmap string Value) v srs db id :
  values !! "state" = Some v →
  Forall (λ id, is_Some (transport_request db !! id)) srs →
  id ∈ srs →
  state_of (ModelSQL_write srs values db).2 id = Some v.
Proof.
  intros Hv Hall Hin. rewrite write_inr by done. simpl.
  assert (is_Some (transport_request db !! id)) as [row Hrow]
    by by eapply Forall_forall in Hall.
  clear Hall.
  induction srs as [| j srs IH]; [by apply not_elem_of_nil in Hin |].
  simpl. destruct (decide (j = id)) as [-> | Hne].
  - unfold state_of. simpl. rewrite lookup_alter_eq.
    assert (is_Some (foldr (λ id t, alter (λ row, values ∪ row) id t)
                       (transport_request db) srs !! id)) as [r ->].
    { clear -Hrow. induction srs as [| k srs IH]; simpl; [eauto |].
      destruct IH as [r Hr].
      destruct (decide (k = id)) as [-> | Hne].
      - rewrite lookup_alter_eq, Hr. simpl. eauto.
      - rewrite lookup_alter_ne by done. eauto. }
    simpl. unfold get. by rewrite (lookup_union_Some_l _ _ _ _ Hv).
  - apply state_of_alter; [done |]. apply IH.
    apply elem_of_cons in Hin as [-> | Hin]; done.
Qed.

(** C7: [open_support] on a request that is already open leaves its
    stored state open, and [close_support] on a request that is already
    closed leaves it closed, whether the action goes through or raises; it
    goes through when every record it is given exists. *)
Theorem support_idempotent db srs id :
  (state_of db id = Some (VStr "open") →
   state_of (open_support srs db).2 id = Some (VStr "open") ∧
   (Forall (λ i, is_Some (transport_request db !! i)) srs →
    (open_support srs db).1 = inr tt)) ∧
  (state_of db id = Some (VStr "closed") →
   state_of (close_support srs db).2 id = Some (VStr "closed") ∧
   (Forall (λ i, is_Some (transport_request db !! i)) srs →
    (close_support srs db).1 = inr tt)).
Proof.
  split; intros Hst; split.
  - by apply write_keeps_state.
  - intros Hall. unfold open_support. by rewrite write_inr.
  - by apply write_keeps_state.
  - intros Hall. unfold close_support. by rewrite write_inr.
Qed.

(** *** Creating requests *)

Lemma code_taken_false t row id' row' :
  code_taken t row = false → get row "code" ≠ VNone →
  t !! id' = Some row' → get row' "code" ≠ get row "code".
Proof.
  unfold code_taken. intros Hb Hc Hl Heq.
  assert (bool_decide (map_Exists (λ _ r, get r "code" = get row "code") t) = false)
    as Hb' by (destruct (get row "code"); done).
  apply bool_decide_eq_false in Hb'. apply Hb'. by exists id', row'.
Qed.

Lemma insert_row_inr v db id db' :
  insert_row v db = (inr id, db') →
  transport_request db !! id = None ∧
  code_taken (transport_request db) (v ∪ default_get db) = false ∧
  db' = set_transport_request (<[id := v ∪ default_get db]> (transport_request db)) db.
Proof.
  unfold insert_row. destruct (missing_required _); [done |].
  destruct (code_taken _ _) eqn:Htaken; [done |].
  intros [= <- <-]. repeat split.
  apply not_elem_of_dom, is_fresh.
Qed.

Lemma holds_insert_old t id row id2 row2 :
  holds t id row → t !! id2 = None → code_taken t row2 = false →
  holds (<[id2 := row2]> t) id row.
Proof.
  intros [Hl Hu] Hfresh Htaken.
  assert (id ≠ id2) as Hne by congruence.
  split; [by rewrite lookup_insert_ne |].
  intros Hc id' row' Hl' Heq.
  destruct (decide (id' = id2)) as [-> | Hne'].
  - rewrite lookup_insert_eq in Hl'. injection Hl' as <-.
    exfalso. eapply (code_taken_false t row2 id row); [done | congruence | done | done].
  - rewrite lookup_insert_ne in Hl' by done. by eapply Hu.
Qed.

Lemma holds_insert_new t id row :
  t !! id = None → code_taken t row = false → holds (<[id := row]> t) id row.
Proof.
  intros Hfresh Htaken. split; [by rewrite lookup_insert_eq |].
  intros Hc id' row' Hl' Heq.
  destruct (decide (id' = id)) as [| Hne]; [done |].
  rewrite lookup_insert_ne in Hl' by done.
  exfalso. by eapply (code_taken_false t row id' row').
Qed.

Lemma create_rows vl : ∀ db ids db',
  ModelSQL_create vl db = (inr ids, db') →
  default_get db' = default_get db ∧
  (∀ id row, holds (transport_request db) id row → holds (transport_request db') id row) ∧
  Forall2 (λ v id, holds (transport_request db') id (v ∪ default_get db)) vl ids.
Proof.
  unfold ModelSQL_create.
  induction vl as [| v vl IH]; intros db ids db'; simpl.
  - intros [= <- <-]. split; [done |]. split; [done | constructor].
  - intros Hrun.
    apply bind_inr in Hrun as (id & db1 & Hins & Hrun).
    apply bind_inr in Hrun as (ids' & db2 & Hrest & Hret).
    injection Hret as <- <-.
    apply insert_row_inr in Hins as (Hfresh & Htaken & ->).
    apply IH in Hrest as (Hdef & Hkeep & Hall). simpl in *.
    split; [done |]. split.
    + intros j row Hj. apply Hkeep. by apply holds_insert_old.
    + constructor; [| done].
      apply Hkeep. by apply holds_insert_new.
Qed.

Lemma assign_code_inr v db v' db1 :
  assign_code v db = (inr v', db1) →
  transport_request db1 = transport_request db ∧
  default_get db1 = default_get db ∧
  sequences db1 = sequences db ∧
  assigned (sequences db) v v'.
Proof.
  unfold assign_code, assigned.
  destruct (truthy (get v "code")) eqn:Hcode; simpl.
  - intros [= <- <-]. repeat split. by left.
  - unfold bind, Config, record_id, get_id, ret, raise.
    destruct (sequences db) as [[[seq |]] |] eqn:Hconf; simpl; try done.
    destruct (Sequence_get_id seq (ir_sequence db)) as [e | [c st']] eqn:Hgen; [done |].
    intros [= <- <-]. repeat split; [done |]. right. split; [done |].
    by exists seq, c, (ir_sequence db), st'.
Qed.

Lemma assign_codes vlist : ∀ db vl' db1,
  mapM assign_code vlist db = (inr vl', db1) →
  transport_request db1 = transport_request db ∧
  default_get db1 = default_get db ∧
  sequences db1 = sequences db ∧
  Forall2 (assigned (sequences db)) vlist vl'.
Proof.
  induction vlist as [| v vlist IH]; intros db vl' db1; simpl.
  - intros [= <- <-]. repeat split. constructor.
  - intros Hrun.
    apply bind_inr in Hrun as (v' & db2 & Hone & Hrun).
    apply bind_inr in Hrun as (vs & db3 & Hrest & Hret).
    injection Hret as <- <-.
    apply assign_code_inr in Hone as (Ht & Hd & Hs & Hv).
    apply IH in Hrest as (Ht' & Hd' & Hs' & Hvs).
    repeat split; [congruence | congruence | congruence |].
    constructor; [done |]. by rewrite <- Hs.
Qed.

(** Each dictionary of values ends up as one row: the values after the
    loop, completed by the defaults. *)
Lemma create_inr vlist db ids db' :
  create vlist db = (inr ids, db') →
  ∀ i v, vlist !! i = Some v →
  ∃ v' id, assigned (sequences db) v v' ∧ ids !! i = Some id ∧
           holds (transport_request db') id (v' ∪ default_get db).
Proof.
  unfold create. rewrite copy_vlist. intros Hrun i v Hi.
  apply bind_inr in Hrun as (vl' & db1 & Hassign & Hcreate).
  apply assign_codes in Hassign as (_ & Hdef & _ & Hvs).
  apply create_rows in Hcreate as (_ & _ & Hrows).
  destruct (Forall2_lookup_l _ _ _ _ _ Hvs Hi) as (v' & Hi' & Hv').
  destruct (Forall2_lookup_l _ _ _ _ _ Hrows Hi') as (id & Hid & Hrow).
  exists v', id. by rewrite <- Hdef.
Qed.

(** A single request without code is created as soon as the sequence is
    configured and answers, the required fields are there and the new code
    is free. *)
Lemma create_one v db seq c st' :
  truthy (get v "code") = false →
  sequences db = Some (mkPolicoopSequences (Some seq)) →
  Sequence_get_id seq (ir_sequence db) = inr (c, st') →
  missing_required (<["code" := VStr c]> v ∪ default_get db) = None →
  code_taken (transport_request db) (<["code" := VStr c]> v ∪ default_get db) = false →
  ∃ id db', create [v] db = (inr [id], db').
Proof.
  intros Hcode Hconf Hgen Hreq Hfree.
  unfold create, ModelSQL_create, assign_code, copy. simpl. rewrite Hcode. simpl.
  unfold bind, Config, record_id, get_id, ret, insert_row.
  rewrite Hconf. simpl. rewrite Hgen. simpl. unfold bind, ret.
  change (default_get (set_ir_sequence st' db)) with (default_get db).
  change (transport_request (set_ir_sequence st' db)) with (transport_request db).
  rewrite Hreq, Hfree. eauto.
Qed.

(** C1: take a sequence service whose values are never empty.  When
    [create] succeeds, every request that came without a code is stored
    with a code that is the value the configured sequence gave, is not
    empty, and is the code of no other stored request. *)
Theorem create_code_nonempty_unique vlist db ids db' :
  (∀ seq st c st', Sequence_get_id seq st = inr (c, st') → c ≠ "") →
  create vlist db = (inr ids, db') →
  ∀ i v, vlist !! i = Some v → truthy (get v "code") = false →
  ∃ id row c seq st st',
    ids !! i = Some id ∧
    transport_request db' !! id = Some row ∧
    get row "code" = VStr c ∧
    sequences db = Some (mkPolicoopSequences (Some seq)) ∧
    Sequence_get_id seq st = inr (c, st') ∧
    c ≠ "" ∧
    ∀ id' row', transport_request db' !! id' = Some row' →
                get row' "code" = VStr c → id' = id.
Proof.
  intros Hgen Hrun i v Hi Hcode.
  destruct (create_inr _ _ _ _ Hrun i v Hi) as (v' & id & Hv' & Hid & Hrow & Huniq).
  destruct Hv' as [[Hc _] | (_ & seq & c & st & st' & Hconf & Hget & ->)]; [congruence |].
  assert (get (<["code" := VStr c]> v ∪ default_get db) "code" = VStr c) as Hrc.
  { unfold get. erewrite lookup_union_Some_l; [done |]. apply lookup_insert_eq. }
  exists id, (<["code" := VStr c]> v ∪ default_get db), c, seq, st, st'.
  repeat split; try done.
  - by eapply Hgen.
  - intros id' row' Hl' Hc'. eapply Huniq; [| done |]; by rewrite Hrc.
Qed.

(** C10: when [create] succeeds, every request that came without a value
    for [state] is stored in the state [open], the default of the model;
    the selection of the field also admits the empty value and [closed]. *)
Theorem create_default_state vlist db ids db' :
  create vlist db = (inr ids, db') →
  (∀ i v, vlist !! i = Some v → v !! "state" = None →
          ∃ id, ids !! i = Some id ∧ state_of db' id = Some (VStr "open")) ∧
  default_state = VStr "open" ∧
  VNone ∈ state_selection ∧ VStr "closed" ∈ state_selection.
Proof.
  intros Hrun. split; [| repeat split; unfold state_selection; set_solver].
  intros i v Hi Hstate.
  destruct (create_inr _ _ _ _ Hrun i v Hi) as (v' & id & Hv' & Hid & Hrow & _).
  exists id. split; [done |].
  unfold state_of. rewrite Hrow. simpl. f_equal.
  assert (v' !! "state" = None) as Hnone.
  { destruct Hv' as [[_ ->] | (_ & seq & c & st & st' & _ & _ & ->)]; [done |].
    by rewrite lookup_insert_ne. }
  unfold get. rewrite lookup_union_r by done.
  unfold default_get. by simplify_map_eq.
Qed.

End TransportRequestFacts.

(** ** Movements derived from a line *)

Section GetMoveFacts.
Context `{UomService}.

Lemma SFeqb_opp_zero (q : float) :
  SFeqb q zero = true → SFeqb (SFopp q) zero = true.
Proof. by destruct q as [[] | [] | | [] m e]. Qed.

Lemma SFltb_opp_zero (d : float) :
  SFltb d zero = true → SFltb zero (SFopp d) = true.
Proof. by destruct d as [[] | [] | | [] m e]. Qed.

Lemma SFltb_zero_not_eqb (d : float) :
  SFltb d zero = true → SFeqb d zero = false.
Proof. by destruct d as [[] | [] | | [] m e]. Qed.

(** The class declares no field [inventory]. *)
Lemma inventory_not_declared : "inventory" ∉ _fields.
Proof. apply (bool_decide_eq_false_1 ("inventory" ∈ _fields)). by vm_compute. Qed.

(** Given a value for [self.inventory], a negative delta makes source and
    destination change places and the quantity the opposite of the delta,
    which is positive. *)
Lemma build_move_swapped (inventory : Inventory) (self : Line) :
  SFltb (delta self) zero = true →
  build_move inventory self =
    mkMove (lost_found inventory) (location inventory)
      (SFopp (delta self)) (product self) (uom self)
      (company inventory) (date inventory) self ∧
  SFltb zero (SFopp (delta self)) = true.
Proof.
  intros Hneg. unfold build_move. rewrite Hneg.
  split; [done | by apply SFltb_opp_zero].
Qed.

(** Given a value for [self.inventory], a delta that is not negative leaves
    the locations as they are read. *)
Lemma build_move_unswapped (inventory : Inventory) (self : Line) :
  SFltb (delta self) zero = false →
  build_move inventory self =
    mkMove (location inventory) (lost_found inventory)
      (delta self) (product self) (uom self)
      (company inventory) (date inventory) self.
Proof. intros Hneg. unfold build_move. by rewrite Hneg. Qed.

(** With a delta that is not zero, [get_move] stops at [self.inventory]. *)
Lemma get_move_raises (self : Line) :
  SFeqb (delta self) zero = false →
  get_move self = inl (AttributeError "inventory").
Proof. intros Hz. unfold get_move. by rewrite Hz. Qed.


(** C4: a line whose delta is zero gets no movement; in particular a line
    of quantity zero, the converter taking zero to zero. *)
Theorem get_move_zero (self : Line) :
  (SFeqb (delta self) zero = true → get_move self = inr None) ∧
  ((∀ q, SFeqb q zero = true →
         SFeqb (Uom_compute_qty (uom self) q (uom self)) zero = true) →
   SFeqb (quantity self) zero = true → get_move self = inr None).
Proof.
  assert (SFeqb (delta self) zero = true → get_move self = inr None) as Hzero.
  { intros Hz. unfold get_move. by rewrite Hz. }
  split; [done |].
  intros Hconv Hq. apply Hzero. unfold delta.
  by apply Hconv, SFeqb_opp_zero.
Qed.

(** C5: for a line whose delta is negative, [get_move] returns no movement
    with the locations swapped and the quantity negated: it raises
    [AttributeError] at [self.inventory], before the statement that swaps. *)
Theorem get_move_negative_raises (self : Line) :
  SFltb (delta self) zero = true →
  get_move self = inl (AttributeError "inventory").
Proof.
  intros Hneg. apply get_move_raises. by apply SFltb_zero_not_eqb.
Qed.

End GetMoveFacts.

(** ** Cancelling the movements of lines *)

Section CancelMoveFacts.
Context `{StockMoveService}.

Lemma elem_of_moves (t : gmap Z MoveRow) (l m : Z) :
  m ∈ moves t l ↔
  ∃ row, t !! m = Some row ∧ move_origin row = Some (reference __name__ l).
Proof.
  unfold moves. rewrite list_elem_of_fmap. split.
  - intros ([m' row] & -> & Hin).
    apply elem_of_map_to_list, map_lookup_filter_Some in Hin as [Hl Ho].
    by exists row.
  - intros (row & Hl & Ho). exists (m, row). split; [done |].
    by apply elem_of_map_to_list, map_lookup_filter_Some.
Qed.

(** The guard [if l.moves] of the comprehension drops nothing: it is only
    reached with a movement of [l.moves] in hand. *)
Lemma collected_bind (t : gmap Z MoveRow) (lines : list Z) :
  collected t lines = lines ≫= moves t.
Proof.
  unfold collected. induction lines as [| l lines IH]; [done |].
  simpl. f_equal; [| done].
  destruct (moves t l) as [| m ms] eqn:Hms; [done |].
  simpl. f_equal. clear. induction ms as [| m' ms IH]; [done |].
  simpl. by f_equal.
Qed.

Lemma elem_of_collected (t : gmap Z MoveRow) (lines : list Z) (m : Z) :
  m ∈ collected t lines ↔ ∃ l, l ∈ lines ∧ m ∈ moves t l.
Proof.
  rewrite collected_bind, list_elem_of_bind.
  split; intros (l & Hl1 & Hl2); by exists l.
Qed.

(** C6: take a stock subsystem whose [delete], when it succeeds, leaves
    none of the movements it was given.  When [cancel_move] succeeds, it has
    cancelled and then deleted the collected movements, every movement whose
    origin is one of the lines was collected, and none of them is in the
    table any more. *)
Theorem cancel_move_removes (lines : list Z) (t t' : gmap Z MoveRow) :
  (∀ ids t1 t2, Move_delete ids t1 = inr t2 → ∀ id, id ∈ ids → t2 !! id = None) →
  cancel_move lines t = inr t' →
  (∃ t1, Move_cancel (collected t lines) t = inr t1 ∧
         Move_delete (collected t lines) t1 = inr t') ∧
  (∀ l m row, l ∈ lines → t !! m = Some row →
              move_origin row = Some (reference __name__ l) →
              m ∈ collected t lines ∧ t' !! m = None).
Proof.
  intros Hdelete Hrun. unfold cancel_move in Hrun.
  destruct (Move_cancel (collected t lines) t) as [e | t1] eqn:Hcancel; [done |].
  split; [by exists t1 |].
  intros l m row Hl Hm Ho.
  assert (m ∈ collected t lines) as Hin.
  { apply elem_of_collected. exists l. split; [done |].
    apply elem_of_moves. by exists row. }
  split; [done |]. by eapply Hdelete.
Qed.

End CancelMoveFacts.

(** The sample stock subsystem deletes what it is given. *)
Lemma lookup_foldr_delete_elem (ids : list Z) (t : gmap Z MoveRow) (id : Z) :
  id ∈ ids → foldr delete t ids !! id = None.
Proof.
  induction ids as [| j ids IH]; [by intros ?%not_elem_of_nil |].
  intros Hin. simpl.
  destruct (decide (j = id)) as [-> | Hne]; [by rewrite lookup_delete_eq |].
  rewrite lookup_delete_ne by done. apply IH.
  apply elem_of_cons in Hin as [-> | Hin]; done.
Qed.

Lemma stock_delete_removes ids (t1 t2 : gmap Z MoveRow) :
  @Move_delete Sample.stock ids t1 = inr t2 →
  ∀ id, id ∈ ids → t2 !! id = None.
Proof.
  simpl. destruct (forallb _ _); [| done].
  intros [= <-] id Hin. by apply lookup_foldr_delete_elem.
Qed.

(** ** Registering the table *)

Lemma lookup_update_origin v move_id (mt : gmap Z MoveRow) j :
  update_origin v move_id mt !! j =
  if decide (move_id = j)
  then (λ m, mkMoveRow (move_state m) (Some v)) <$> mt !! j
  else mt !! j.
Proof.
  unfold update_origin. rewrite lookup_alter.
  by destruct (decide (move_id = j)) as [-> |].
Qed.

Lemma rewrite_origins_other fetched : ∀ (mt : gmap Z MoveRow) j,
  j ∉ fetched.*2 → rewrite_origins fetched mt !! j = mt !! j.
Proof.
  unfold rewrite_origins.
  induction fetched as [| [lid mid] fetched IH]; intros mt j Hj; [done |].
  simpl in *. apply not_elem_of_cons in Hj as [Hne Hj].
  rewrite IH by done. rewrite lookup_update_origin.
  by destruct (decide (mid = j)).
Qed.

(** The loop, had it run: a movement ends with the reference of the last
    fetched row that names it. *)
Lemma rewrite_origins_last pre lid mid post (mt : gmap Z MoveRow) row :
  mid ∉ post.*2 → mt !! mid = Some row →
  rewrite_origins (pre ++ (lid, mid) :: post) mt !! mid =
  Some (mkMoveRow (move_state row) (Some (reference __name__ lid))).
Proof.
  intros Hpost. revert mt row.
  induction pre as [| [lid' mid'] pre IH]; intros mt row Hrow.
  - unfold rewrite_origins. simpl.
    fold (rewrite_origins post (update_origin (reference __name__ lid) mid mt)).
    rewrite rewrite_origins_other by done.
    rewrite lookup_update_origin. case_decide; [| done]. by rewrite Hrow.
  - unfold rewrite_origins. simpl.
    fold (rewrite_origins (pre ++ (lid, mid) :: post)
            (update_origin (reference __name__ lid') mid' mt)).
    destruct (decide (mid' = mid)) as [-> | Hne].
    + rewrite (IH _ (mkMoveRow (move_state row) (Some (reference __name__ lid'))));
        [done |].
      rewrite lookup_update_origin. case_decide; [| done]. by rewrite Hrow.
    + apply IH. rewrite lookup_update_origin. by case_decide.
Qed.

(** In a namespace where [Null] is bound the branch does what it was
    written for. *)
Lemma register_bound globals db :
  "Null" ∈ globals → "move" ∈ columns (line_table db) →
  (__register__ globals db).1 = inr tt ∧
  column_exist "move" (line_table (__register__ globals db).2) = false ∧
  move_table (__register__ globals db).2 =
    rewrite_origins (fetchall (line_table db)) (move_table db).
Proof.
  intros Hnull Hmove. unfold __register__, lookup_global.
  assert (column_exist "move"
            (drop_constraint "inventory_product_uniq" (super_register (line_table db)))
          = true) as ->.
  { unfold column_exist. apply bool_decide_eq_true. simpl.
    by apply elem_of_union_l. }
  rewrite bool_decide_eq_true_2 by done. simpl.
  repeat split. unfold column_exist. apply bool_decide_eq_false. simpl.
  rewrite elem_of_difference. intros [_ Hout]. by apply Hout, elem_of_singleton.
Qed.

(** Whenever the legacy column is there, the method stops at the name
    [Null]: no origin has been rewritten and the column is still there. *)
Lemma register_unbound db :
  "move" ∈ columns (line_table db) →
  (__register__ module_globals db).1 = inl (NameError "Null") ∧
  move_table (__register__ module_globals db).2 = move_table db ∧
  column_exist "move" (line_table (__register__ module_globals db).2) = true.
Proof.
  intros Hmove. unfold __register__.
  assert (column_exist "move"
            (drop_constraint "inventory_product_uniq" (super_register (line_table db)))
          = true) as Hcol.
  { unfold column_exist. apply bool_decide_eq_true. simpl.
    by apply elem_of_union_l. }
  rewrite Hcol.
  assert (lookup_global module_globals "Null" = inl (NameError "Null")) as ->
    by by vm_compute.
  done.
Qed.

(** C9: on a table that still has the column [move], with line 8 pointing
    at movement 1, [__register__] raises [NameError] for [Null]; the origin
    of movement 1 is not rewritten to [policoop.transport.line,8] and the
    column is not dropped. *)
Theorem register_legacy :
  column_exist "move" (line_table Sample.legacy) = true ∧
  fetchall (line_table Sample.legacy) = [(8, 1)] ∧
  (__register__ module_globals Sample.legacy).1 = inl (NameError "Null") ∧
  move_origin <$> move_table (__register__ module_globals Sample.legacy).2 !! 1
    = Some None ∧
  column_exist "move" (line_table (__register__ module_globals Sample.legacy).2) = true.
Proof. repeat split; by vm_compute. Qed.

(** ** The properties at work on the sample installation *)

Import Sample.

Lemma incremental_nonempty seq (st : gmap Z Z) c st' :
  @Sequence_get_id incremental seq st = inr (c, st') → c ≠ "".
Proof. simpl. destruct (st !! seq); [| done]. by intros [= <- <-]. Qed.

(** Two requests without code are created after requests 1 and 2: the
    first becomes request 3, with the code the sequence gave. *)
Lemma create_code_nonempty_unique_witness :
  create [call; call] db0 = (inr [3; 4], (create [call; call] db0).2) ∧
  ∃ id row c seq st st',
    [3; 4] !! 0%nat = Some id ∧
    transport_request (create [call; call] db0).2 !! id = Some row ∧
    get row "code" = VStr c ∧
    sequences db0 = Some (mkPolicoopSequences (Some seq)) ∧
    Sequence_get_id seq st = inr (c, st') ∧
    c ≠ "" ∧
    ∀ id' row', transport_request (create [call; call] db0).2 !! id' = Some row' →
                get row' "code" = VStr c → id' = id.
Proof.
  assert (create [call; call] db0 = (inr [3; 4], (create [call; call] db0).2)) as Hrun
    by (vm_compute; reflexivity).
  split; [exact Hrun |].
  apply (create_code_nonempty_unique [call; call] db0 [3; 4] _
           incremental_nonempty Hrun 0%nat call); reflexivity.
Defined.

Lemma create_default_state_witness :
  create [call; call] db0 = (inr [3; 4], (create [call; call] db0).2) ∧
  ∃ id, [3; 4] !! 1%nat = Some id ∧
        state_of (create [call; call] db0).2 id = Some (VStr "open").
Proof.
  assert (create [call; call] db0 = (inr [3; 4], (create [call; call] db0).2)) as Hrun
    by (vm_compute; reflexivity).
  split; [exact Hrun |].
  apply (proj1 (create_default_state [call; call] db0 [3; 4] _ Hrun) 1%nat call);
    reflexivity.
Defined.

Lemma create_unconfigured_witness :
  unconfigured db_no_config ∧ unconfigured db_unset ∧
  create [call] db_no_config = (inl (AttributeError "id"), db_no_config) ∧
  create [call] db_unset = (inl (AttributeError "id"), db_unset).
Proof.
  assert (unconfigured db_no_config) as H1 by (left; reflexivity).
  assert (unconfigured db_unset) as H2 by (right; reflexivity).
  assert (Exists (λ v, truthy (get v "code") = false) [call]) as Hex
    by (constructor; reflexivity).
  split; [exact H1 |]. split; [exact H2 |]. split.
  - exact (create_unconfigured [call] db_no_config H1 Hex).
  - exact (create_unconfigured [call] db_unset H2 Hex).
Defined.

Lemma support_idempotent_witness :
  state_of db0 2 = Some (VStr "open") ∧
  state_of (open_support [2] db0).2 2 = Some (VStr "open") ∧
  (open_support [2] db0).1 = inr tt ∧
  state_of db0 1 = Some (VStr "closed") ∧
  state_of (close_support [1; 99] db0).2 1 = Some (VStr "closed").
Proof.
  split; [reflexivity |]. split; [| split; [| split; [reflexivity |]]].
  - apply (proj1 (support_idempotent db0 [2] 2)). reflexivity.
  - apply (proj1 (support_idempotent db0 [2] 2)); [reflexivity |].
    apply (bool_decide_unpack _). vm_compute. exact I.
  - apply (proj2 (support_idempotent db0 [1; 99] 1)). reflexivity.
Defined.


Lemma get_move_zero_witness :
  get_move (line (float_of_Z 0)) = inr None ∧
  get_move (line (SFopp (float_of_Z 0))) = inr None.
Proof.
  split.
  - apply (proj1 (get_move_zero (line (float_of_Z 0)))). reflexivity.
  - apply (proj2 (get_move_zero (line (SFopp (float_of_Z 0))))).
    + intros q Hq. exact Hq.
    + reflexivity.
Defined.

Lemma get_move_negative_raises_witness :
  SFltb (delta (line (float_of_Z 3))) zero = true ∧
  get_move (line (float_of_Z 3)) = inl (AttributeError "inventory").
Proof.
  split; [reflexivity |].
  apply (get_move_negative_raises (line (float_of_Z 3))). reflexivity.
Defined.

(** Line 8 has the movements 1 and 2 and line 9 the movement 3; after
    cancelling line 8 only movement 3 is left. *)
Lemma cancel_move_removes_witness :
  cancel_move [8] stock_moves = inr {[ 3 := mkMoveRow "draft" (Some "policoop.transport.line,9") ]} ∧
  (∃ t1, Move_cancel (collected stock_moves [8]) stock_moves = inr t1 ∧
         Move_delete (collected stock_moves [8]) t1
         = inr {[ 3 := mkMoveRow "draft" (Some "policoop.transport.line,9") ]}) ∧
  (∀ l m row, l ∈ [8] → stock_moves !! m = Some row →
              move_origin row = Some (reference __name__ l) →
              m ∈ collected stock_moves [8] ∧
              ({[ 3 := mkMoveRow "draft" (Some "policoop.transport.line,9") ]}
                 : gmap Z MoveRow) !! m = None).
Proof.
  assert (cancel_move [8] stock_moves
          = inr {[ 3 := mkMoveRow "draft" (Some "policoop.transport.line,9") ]}) as Hrun
    by (vm_compute; reflexivity).
  split; [exact Hrun |].
  exact (cancel_move_removes [8] stock_moves _ stock_delete_removes Hrun).
Defined.

(** * Further properties *)

(** ** The map link, where zero is not involved *)

(** X1: as long as no coordinate is set to zero, [on_change_with_urladdr]
    returns the link the specification words: the template when both
    coordinates are set, the empty string otherwise. *)
Theorem urladdr_agrees (self : Coordinates) :
  (∀ d, latitude self = Some d → d_int d ≠ 0%N) →
  (∀ d, longitude self = Some d → d_int d ≠ 0%N) →
  on_change_with_urladdr self = urladdr_spec self.
Proof.
  intros Hlat Hlon.
  destruct (latitude self) as [lat |] eqn:Elat.
  - destruct (longitude self) as [lon |] eqn:Elon.
    + rewrite (urladdr_nonzero self lat lon) by auto.
      unfold urladdr_spec. by rewrite Elat, Elon.
    + rewrite urladdr_unset by auto. unfold urladdr_spec. by rewrite Elat, Elon.
  - rewrite urladdr_unset by auto. unfold urladdr_spec. by rewrite Elat.
Qed.

(** ** More on creating requests *)

Section CreateFacts.
Context `{SequenceService}.

Lemma insert_row_required v db id db' :
  insert_row v db = (inr id, db') →
  missing_required (v ∪ default_get db) = None.
Proof.
  unfold insert_row. by destruct (missing_required _).
Qed.

Lemma create_rows_frame vl : ∀ db ids db',
  ModelSQL_create vl db = (inr ids, db') →
  length ids = length vl ∧ NoDup ids ∧
  (∀ id, id ∈ ids → transport_request db !! id = None) ∧
  (∀ id row, transport_request db !! id = Some row →
             transport_request db' !! id = Some row) ∧
  (∀ id, is_Some (transport_request db' !! id) →
         is_Some (transport_request db !! id) ∨ id ∈ ids) ∧
  Forall (λ v, missing_required (v ∪ default_get db) = None) vl.
Proof.
  unfold ModelSQL_create.
  induction vl as [| v vl IH]; intros db ids db'; simpl.
  - intros [= <- <-]. split_and!.
    + done.
    + constructor.
    + by intros id ?%not_elem_of_nil.
    + done.
    + intros id Hid. by left.
    + constructor.
  - intros Hrun.
    apply bind_inr in Hrun as (id & db1 & Hins & Hrun).
    apply bind_inr in Hrun as (ids' & db2 & Hrest & Hret).
    injection Hret as <- <-.
    pose proof (insert_row_required _ _ _ _ Hins) as Hreq.
    apply insert_row_inr in Hins as (Hfresh & _ & ->).
    apply IH in Hrest as (Hlen & Hnd & Hnew & Hold & Hdom & Hall). simpl in *.
    assert (id ∉ ids') as Hnotin.
    { intros Hin. apply Hnew in Hin. by rewrite lookup_insert_eq in Hin. }
    split_and!.
    + by rewrite Hlen.
    + by constructor.
    + intros j [-> | Hj]%elem_of_cons; [done |].
      apply Hnew in Hj. destruct (decide (id = j)) as [-> | Hne].
      * by rewrite lookup_insert_eq in Hj.
      * by rewrite lookup_insert_ne in Hj.
    + intros j row Hj. apply Hold. rewrite lookup_insert_ne; [done |]. congruence.
    + intros j Hj. destruct (Hdom j Hj) as [Hin | Hin].
      * destruct (decide (id = j)) as [-> | Hne].
        -- right. by left.
        -- left. by rewrite lookup_insert_ne in Hin.
      * right. by right.
    + constructor; done.
Qed.

Lemma assigned_lookup config (v v' : gmap string Value) k :
  assigned config v v' → k ≠ "code" → v' !! k = v !! k.
Proof.
  intros [[_ ->] | (_ & seq & c & st & st' & _ & _ & ->)] Hk; [done |].
  by rewrite lookup_insert_ne.
Qed.

Lemma assigned_explicit config (v v' : gmap string Value) :
  assigned config v v' → truthy (get v "code") = true → v' = v.
Proof.
  intros [[_ ->] | (Hc & _)] Ht; [done | congruence].
Qed.

(** The outcome of a successful [create], row by row and as a whole. *)
Lemma create_spec vlist db ids db' :
  create vlist db = (inr ids, db') →
  Forall2 (λ v id, ∃ v', assigned (sequences db) v v' ∧
                         missing_required (v' ∪ default_get db) = None ∧
                         holds (transport_request db') id (v' ∪ default_get db))
          vlist ids ∧
  NoDup ids ∧
  (∀ id, id ∈ ids → transport_request db !! id = None) ∧
  (∀ id row, transport_request db !! id = Some row →
             transport_request db' !! id = Some row) ∧
  (∀ id, is_Some (transport_request db' !! id) →
         is_Some (transport_request db !! id) ∨ id ∈ ids).
Proof.
  unfold create. rewrite copy_vlist. intros Hrun.
  apply bind_inr in Hrun as (vl' & db1 & Hassign & Hcreate).
  apply assign_codes in Hassign as (Ht & Hdef & _ & Hvs).
  pose proof (create_rows _ _ _ _ Hcreate) as (_ & _ & Hrows).
  apply create_rows_frame in Hcreate as (_ & Hnd & Hnew & Hold & Hdom & Hreq).
  rewrite Hdef in Hrows, Hreq. rewrite Ht in Hnew, Hold, Hdom.
  split; [| done].
  clear -Hvs Hrows Hreq. revert ids Hrows Hreq.
  induction Hvs as [| v v' vlist vl' Hv Hvs IH]; intros ids Hrows Hreq.
  - inversion Hrows. constructor.
  - inversion Hrows as [| ? id ? ids' Hrow Hrows']; subst.
    inversion Hreq; subst.
    constructor; [by exists v' | by apply IH].
Qed.

(** X2: a successful [create] returns one fresh id for each dictionary of
    values, all different; the rows that were there are still there as they
    were, and the only new rows are those of the ids returned. *)
Theorem create_frame vlist db ids db' :
  create vlist db = (inr ids, db') →
  length ids = length vlist ∧ NoDup ids ∧
  (∀ id, id ∈ ids → transport_request db !! id = None ∧
                    is_Some (transport_request db' !! id)) ∧
  (∀ id row, transport_request db !! id = Some row →
             transport_request db' !! id = Some row) ∧
  (∀ id, is_Some (transport_request db' !! id) →
         is_Some (transport_request db !! id) ∨ id ∈ ids).
Proof.
  intros Hrun.
  destruct (create_spec _ _ _ _ Hrun) as (Hrows & Hnd & Hnew & Hold & Hdom).
  split_and!; try done.
  - symmetry. by eapply Forall2_length.
  - intros id Hin. split; [by apply Hnew |].
    apply list_elem_of_lookup in Hin as [i Hi].
    destruct (Forall2_lookup_r _ _ _ _ _ Hrows Hi) as (v & _ & v' & _ & _ & Hl & _).
    by rewrite Hl.
Qed.


Lemma get_union_l (v d : gmap string Value) k x :
  v !! k = Some x → get (v ∪ d) k = x.
Proof. intros Hk. unfold get. by rewrite (lookup_union_Some_l _ _ _ _ Hk). Qed.

Lemma get_Some_of_truthy (v : gmap string Value) k :
  truthy (get v k) = true → v !! k = Some (get v k).
Proof. unfold get. by destruct (v !! k). Qed.

(** X3: what the caller passes is what is stored: every value given for a
    field other than [code], and the code itself when it is a true
    value. *)
Theorem create_keeps_values vlist db ids db' i v id :
  create vlist db = (inr ids, db') →
  vlist !! i = Some v → ids !! i = Some id →
  ∃ row, transport_request db' !! id = Some row ∧
         (∀ k x, k ≠ "code" → v !! k = Some x → row !! k = Some x) ∧
         (truthy (get v "code") = true → get row "code" = get v "code").
Proof.
  intros Hrun Hi Hid.
  destruct (create_spec _ _ _ _ Hrun) as (Hrows & _).
  destruct (Forall2_lookup_l _ _ _ _ _ Hrows Hi) as (id' & Hid' & v' & Hv' & _ & Hl & _).
  assert (id' = id) as -> by congruence.
  exists (v' ∪ default_get db). split; [done |]. split.
  - intros k x Hk Hx. apply lookup_union_Some_l.
    by rewrite (assigned_lookup _ _ _ _ Hv' Hk).
  - intros Ht. rewrite (assigned_explicit _ _ _ Hv' Ht).
    apply get_union_l. by apply get_Some_of_truthy.
Qed.

(** X4: the other two defaults: a request that came without a date of request
    gets the time of the clock, and one that came without an operator gets
    the health professional of the session. *)
Theorem create_defaults vlist db ids db' i v id :
  create vlist db = (inr ids, db') →
  vlist !! i = Some v → ids !! i = Some id →
  ∃ row, transport_request db' !! id = Some row ∧
         (v !! "request_date" = None → row !! "request_date" = Some (VDateTime (clock db))) ∧
         (v !! "operator" = None → row !! "operator" = Some (health_professional db)).
Proof.
  intros Hrun Hi Hid.
  destruct (create_spec _ _ _ _ Hrun) as (Hrows & _).
  destruct (Forall2_lookup_l _ _ _ _ _ Hrows Hi) as (id' & Hid' & v' & Hv' & _ & Hl & _).
  assert (id' = id) as -> by congruence.
  exists (v' ∪ default_get db). split; [done |].
  split; intros Hnone.
  - rewrite lookup_union_r by (by rewrite (assigned_lookup _ _ _ _ Hv')).
    unfold default_get. by simplify_map_eq.
  - rewrite lookup_union_r by (by rewrite (assigned_lookup _ _ _ _ Hv')).
    unfold default_get. by simplify_map_eq.
Qed.

(** X5: [create] keeps the table free of duplicate codes. *)
Theorem create_codes_unique vlist db ids db' :
  codes_unique (transport_request db) →
  create vlist db = (inr ids, db') →
  codes_unique (transport_request db').
Proof.
  intros Huniq Hrun.
  destruct (create_spec _ _ _ _ Hrun) as (Hrows & _ & Hnew & Hold & Hdom).
  assert (∀ id row, transport_request db' !! id = Some row →
            transport_request db !! id = Some row ∨
            holds (transport_request db') id row) as Hcases.
  { intros id row Hl. destruct (Hdom id) as [[row0 Hl0] | Hin]; [by eexists | |].
    - left. rewrite Hl0. f_equal. apply Hold in Hl0. congruence.
    - right. apply list_elem_of_lookup in Hin as [i Hi].
      destruct (Forall2_lookup_r _ _ _ _ _ Hrows Hi) as (v & _ & v' & _ & _ & Hh).
      destruct Hh as [Hl' Hu]. split; [done |].
      assert (row = v' ∪ default_get db) as -> by congruence. done. }
  intros id1 id2 r1 r2 Hl1 Hl2 Hc Heq.
  destruct (Hcases _ _ Hl1) as [Hold1 | [_ Hu1]].
  - destruct (Hcases _ _ Hl2) as [Hold2 | [_ Hu2]].
    + by eapply Huniq.
    + eapply Hu2; [congruence | done | done].
  - symmetry. eapply Hu1; [done | done | done].
Qed.

(** X6: a code given by the caller that is already the code of a stored
    request, or that is given twice in one call, makes [create] fail. *)
Theorem create_duplicate_code vlist db i v :
  vlist !! i = Some v → truthy (get v "code") = true →
  (∃ id0 r0, transport_request db !! id0 = Some r0 ∧ get r0 "code" = get v "code") ∨
  (∃ j w, j ≠ i ∧ vlist !! j = Some w ∧ get w "code" = get v "code") →
  ∃ e, (create vlist db).1 = inl e.
Proof.
  intros Hi Ht Hdup.
  destruct (create vlist db) as [[e | ids] db'] eqn:Hrun; [by exists e |].
  exfalso.
  destruct (create_spec _ _ _ _ Hrun) as (Hrows & Hnd & Hnew & Hold & _).
  destruct (Forall2_lookup_l _ _ _ _ _ Hrows Hi) as (id & Hid & v' & Hv' & _ & Hl & Hu).
  rewrite (assigned_explicit _ _ _ Hv' Ht) in Hl, Hu.
  assert (get (v ∪ default_get db) "code" = get v "code") as Hcode
    by by apply get_union_l, get_Some_of_truthy.
  assert (get v "code" ≠ VNone) as Hnn by (intros Hn; by rewrite Hn in Ht).
  rewrite Hcode in Hu. specialize (Hu Hnn).
  destruct Hdup as [(id0 & r0 & Hl0 & Hc0) | (j & w & Hne & Hj & Hcw)].
  - assert (id0 = id) as -> by (eapply Hu; [by apply Hold | done]).
    assert (transport_request db !! id = None) as Hfresh
      by (apply Hnew; by eapply list_elem_of_lookup_2).
    congruence.
  - destruct (Forall2_lookup_l _ _ _ _ _ Hrows Hj) as (idj & Hidj & w' & Hw' & _ & Hlj & _).
    assert (truthy (get w "code") = true) as Htw by by rewrite Hcw.
    rewrite (assigned_explicit _ _ _ Hw' Htw) in Hlj.
    assert (idj = id) as ->.
    { eapply Hu; [done |]. rewrite <- Hcw. by apply get_union_l, get_Some_of_truthy. }
    apply Hne. by eapply NoDup_lookup.
Qed.

Lemma assign_codes_explicit vlist db :
  Forall (λ v, truthy (get v "code") = true) vlist →
  mapM assign_code vlist db = (inr vlist, db).
Proof.
  induction 1 as [| v vlist Hv Hall IH]; simpl; [done |].
  rewrite (bind_step _ _ _ _ _ (assign_code_explicit v db Hv)).
  by rewrite (bind_step _ _ _ _ _ IH).
Qed.

(** X8: when every request comes with a code, [create] is the framework's
    [create] on the values as they are: the configuration is not read and
    no value is taken from the sequence, so it works on an installation
    that is not configured. *)
Theorem create_explicit vlist db :
  Forall (λ v, truthy (get v "code") = true) vlist →
  create vlist db = ModelSQL_create vlist db.
Proof.
  intros Hall. unfold create. rewrite copy_vlist.
  by rewrite (bind_step _ _ _ _ _ (assign_codes_explicit vlist db Hall)).
Qed.

(** X7: a request without a date of return is never stored: [create] fails. *)
Theorem create_required vlist db i v :
  vlist !! i = Some v → get v "return_date" = VNone →
  ∃ e, (create vlist db).1 = inl e.
Proof.
  intros Hi Hnone.
  destruct (create vlist db) as [[e | ids] db'] eqn:Hrun; [by exists e |].
  exfalso.
  destruct (create_spec _ _ _ _ Hrun) as (Hrows & _).
  destruct (Forall2_lookup_l _ _ _ _ _ Hrows Hi) as (id & _ & v' & Hv' & Hreq & _).
  assert (get (v' ∪ default_get db) "return_date" = VNone) as Hrow.
  { unfold get in *. rewrite lookup_union.
    rewrite (assigned_lookup _ _ _ _ Hv') by done.
    unfold default_get. simplify_map_eq.
    by destruct (v !! "return_date"). }
  unfold missing_required, required_fields in Hreq. simpl in Hreq.
  destruct (bool_decide (get (v' ∪ default_get db) "request_date" = VNone)); [done |].
  by rewrite bool_decide_eq_true_2 in Hreq.
Qed.

End CreateFacts.

(** ** More on switching the state *)

Section SupportFacts.
Context `{SequenceService}.

Lemma lookup_write (v : Value) ids (t : gmap Z (gmap string Value)) i :
  foldr (λ id t, alter (λ row, {[ "state" := v ]} ∪ row) id t) t ids !! i
  = if decide (i ∈ ids) then <["state" := v]> <$> t !! i else t !! i.
Proof.
  induction ids as [| j ids IH]; simpl.
  - destruct (decide (i ∈ [])) as [Hin |]; [by apply not_elem_of_nil in Hin | done].
  - destruct (decide (j = i)) as [-> | Hne].
    + rewrite lookup_alter_eq, IH.
      destruct (decide (i ∈ i :: ids)) as [_ | Hout]; [| exfalso; apply Hout; by left].
      destruct (decide (i ∈ ids)); destruct (t !! i) as [row |]; simpl; try done.
      * f_equal. rewrite <- insert_union_singleton_l. apply insert_insert_eq.
      * f_equal. by rewrite insert_union_singleton_l.
    + rewrite lookup_alter_ne by done. rewrite IH.
      destruct (decide (i ∈ ids)) as [Hin | Hout];
        destruct (decide (i ∈ j :: ids)) as [Hin' | Hout']; try done.
      * exfalso. apply Hout'. by right.
      * exfalso. apply elem_of_cons in Hin' as [-> | Hin']; done.
Qed.

Lemma write_rows_is_Some (values : gmap string Value) ids
    (t : gmap Z (gmap string Value)) i :
  is_Some (foldr (λ id t, alter (λ row, values ∪ row) id t) t ids !! i)
  ↔ is_Some (t !! i).
Proof.
  induction ids as [| j ids IH]; simpl; [done |].
  destruct (decide (j = i)) as [-> | Hne].
  - by rewrite lookup_alter_eq, fmap_is_Some.
  - by rewrite lookup_alter_ne.
Qed.

Lemma open_rows db srs id :
  Forall (λ i, is_Some (transport_request db !! i)) srs →
  transport_request (open_support srs db).2 !! id
  = if decide (id ∈ srs)
    then <["state" := VStr "open"]> <$> transport_request db !! id
    else transport_request db !! id.
Proof.
  intros Hall. unfold open_support. rewrite write_inr by done. apply lookup_write.
Qed.

Lemma close_rows db srs id :
  Forall (λ i, is_Some (transport_request db !! i)) srs →
  transport_request (close_support srs db).2 !! id
  = if decide (id ∈ srs)
    then <["state" := VStr "closed"]> <$> transport_request db !! id
    else transport_request db !! id.
Proof.
  intros Hall. unfold close_support. rewrite write_inr by done. apply lookup_write.
Qed.

(** After an action that went through, the records it was given are still
    there. *)
Lemma write_keeps_rows (values : gmap string Value) srs db :
  Forall (λ i, is_Some (transport_request db !! i)) srs →
  Forall (λ i, is_Some (transport_request (ModelSQL_write srs values db).2 !! i)) srs.
Proof.
  intros Hall. rewrite write_inr by done. simpl.
  eapply Forall_impl; [exact Hall |]. intros i Hi. by apply write_rows_is_Some.
Qed.

(** X9: when every record listed exists, [open_support] (and likewise
    [close_support]) goes through, sets the state of every listed record and
    keeps all its other fields, leaves the records that are not listed as
    they are, and makes no record appear or disappear; when a listed record
    does not exist, the action raises [write_error] and the store is left as
    it was. *)
Theorem support_rows db srs :
  (Forall (λ i, is_Some (transport_request db !! i)) srs →
   (open_support srs db).1 = inr tt ∧ (close_support srs db).1 = inr tt ∧
   ∀ id,
     transport_request (open_support srs db).2 !! id
     = (if decide (id ∈ srs)
        then <["state" := VStr "open"]> <$> transport_request db !! id
        else transport_request db !! id) ∧
     transport_request (close_support srs db).2 !! id
     = (if decide (id ∈ srs)
        then <["state" := VStr "closed"]> <$> transport_request db !! id
        else transport_request db !! id)) ∧
  (¬ Forall (λ i, is_Some (transport_request db !! i)) srs →
   open_support srs db = (inl (UserError "write_error"), db) ∧
   close_support srs db = (inl (UserError "write_error"), db)).
Proof.
  split.
  - intros Hall. split_and!.
    + unfold open_support. by rewrite write_inr.
    + unfold close_support. by rewrite write_inr.
    + intros id. split; [by apply open_rows | by apply close_rows].
  - intros Hnot. unfold open_support, close_support. by rewrite !write_inl.
Qed.

(** X10: the last action wins: closing records that have just been opened gives
    the table that closing them alone gives, and the other way round. *)
Theorem support_last_wins db srs :
  transport_request (close_support srs (open_support srs db).2).2
  = transport_request (close_support srs db).2 ∧
  transport_request (open_support srs (close_support srs db).2).2
  = transport_request (open_support srs db).2.
Proof.
  destruct (decide (Forall (λ i, is_Some (transport_request db !! i)) srs))
    as [Hall | Hnot].
  - pose proof (write_keeps_rows {[ "state" := VStr "open" ]} srs db Hall) as Hopen.
    pose proof (write_keeps_rows {[ "state" := VStr "closed" ]} srs db Hall) as Hclose.
    fold (open_support srs db) in Hopen. fold (close_support srs db) in Hclose.
    split; apply map_eq; intros i.
    + rewrite (close_rows _ srs i Hopen), (open_rows db srs i Hall),
        (close_rows db srs i Hall).
      destruct (decide (i ∈ srs)); [| done].
      destruct (transport_request db !! i); simpl; [| done].
      by rewrite insert_insert_eq.
    + rewrite (open_rows _ srs i Hclose), (close_rows db srs i Hall),
        (open_rows db srs i Hall).
      destruct (decide (i ∈ srs)); [| done].
      destruct (transport_request db !! i); simpl; [| done].
      by rewrite insert_insert_eq.
  - assert (open_support srs db = (inl (UserError "write_error"), db)) as Ho
      by (unfold open_support; by rewrite write_inl).
    assert (close_support srs db = (inl (UserError "write_error"), db)) as Hc
      by (unfold close_support; by rewrite write_inl).
    split; [by rewrite Ho | by rewrite Hc].
Qed.

(** X11: the codes are out of reach of the two actions. *)
Theorem support_keeps_codes db srs :
  codes_unique (transport_request db) →
  codes_unique (transport_request (open_support srs db).2) ∧
  codes_unique (transport_request (close_support srs db).2).
Proof.
  intros Huniq.
  destruct (decide (Forall (λ i, is_Some (transport_request db !! i)) srs))
    as [Hall | Hnot].
  - assert (∀ v (t' : gmap Z (gmap string Value)),
              (∀ i, t' !! i = if decide (i ∈ srs)
                              then <["state" := v]> <$> transport_request db !! i
                              else transport_request db !! i) →
              codes_unique t') as Hgen.
    { intros v t' Ht'.
      assert (∀ i r, t' !! i = Some r →
                ∃ r0, transport_request db !! i = Some r0 ∧ get r "code" = get r0 "code")
        as Hback.
      { intros i r. rewrite Ht'. destruct (decide (i ∈ srs)).
        - destruct (transport_request db !! i) as [r0 |]; simpl; [| done].
          intros [= <-]. exists r0. split; [done |].
          unfold get. by rewrite lookup_insert_ne.
        - intros Hl. by exists r. }
      intros id1 id2 r1 r2 Hl1 Hl2 Hc Heq.
      destruct (Hback _ _ Hl1) as (r1' & Hl1' & Hc1).
      destruct (Hback _ _ Hl2) as (r2' & Hl2' & Hc2).
      eapply Huniq; [done | done | congruence | congruence]. }
    split.
    + apply (Hgen (VStr "open")). intros i. by apply open_rows.
    + apply (Hgen (VStr "closed")). intros i. by apply close_rows.
  - unfold open_support, close_support. by rewrite !write_inl.
Qed.

Lemma invisible_open_support (row : gmap string Value) :
  invisible "open_support" row = bool_decide (get row "state" = VStr "open").
Proof. reflexivity. Qed.

Lemma invisible_close_support (row : gmap string Value) :
  invisible "close_support" row = bool_decide (get row "state" = VStr "closed").
Proof. reflexivity. Qed.

Lemma get_insert_state (v : Value) (row : gmap string Value) :
  get (<["state" := v]> row) "state" = v.
Proof. unfold get. by rewrite lookup_insert_eq. Qed.

(** X12: the buttons follow the state.  When every record listed exists,
    on a record that has just been opened the button [open_support] is
    hidden and [close_support] is shown, and on a record that has just been
    closed it is the other way round; on no record are both hidden. *)
Theorem buttons_follow_state db srs id row :
  Forall (λ i, is_Some (transport_request db !! i)) srs →
  id ∈ srs → transport_request db !! id = Some row →
  (∃ row', transport_request (open_support srs db).2 !! id = Some row' ∧
           invisible "open_support" row' = true ∧
           invisible "close_support" row' = false) ∧
  (∃ row', transport_request (close_support srs db).2 !! id = Some row' ∧
           invisible "open_support" row' = false ∧
           invisible "close_support" row' = true) ∧
  (invisible "open_support" row && invisible "close_support" row = false).
Proof.
  intros Hall Hin Hrow.
  rewrite !invisible_open_support, !invisible_close_support. split_and!.
  - exists (<["state" := VStr "open"]> row). split.
    + rewrite open_rows by done.
      destruct (decide (id ∈ srs)); [| done]. by rewrite Hrow.
    + rewrite invisible_open_support, invisible_close_support, get_insert_state.
      done.
  - exists (<["state" := VStr "closed"]> row). split.
    + rewrite close_rows by done.
      destruct (decide (id ∈ srs)); [| done]. by rewrite Hrow.
    + rewrite invisible_open_support, invisible_close_support, get_insert_state.
      done.
  - destruct (decide (get row "state" = VStr "open")) as [-> | Hne]; [done |].
    by rewrite bool_decide_eq_false_2.
Qed.

End SupportFacts.

(** ** More on cancelling *)

Lemma reference_inj name : Inj (=) (=) (reference name).
Proof.
  intros l l' Heq. unfold reference in Heq.
  apply (inj (String.app name)) in Heq.
  apply (inj (String.app ",")) in Heq.
  by apply (inj pretty) in Heq.
Qed.

(** X15: the movements [cancel_move] hands to the stock subsystem are exactly
    the movements of the table whose origin is one of the lines: none of
    another line, and none that does not exist. *)
Theorem collected_exactly (t : gmap Z MoveRow) (lines : list Z) (m : Z) :
  m ∈ collected t lines ↔
  ∃ l row, l ∈ lines ∧ t !! m = Some row ∧
           move_origin row = Some (reference __name__ l).
Proof.
  rewrite elem_of_collected. split.
  - intros (l & Hl & Hm). apply elem_of_moves in Hm as (row & Hrow & Ho).
    by exists l, row.
  - intros (l & row & Hl & Hrow & Ho). exists l. split; [done |].
    apply elem_of_moves. by exists row.
Qed.

(** X16: given lines that are all different, no movement is handed over
    twice. *)
Theorem collected_NoDup (t : gmap Z MoveRow) (lines : list Z) :
  NoDup lines → NoDup (collected t lines).
Proof.
  intros Hnd. rewrite collected_bind. apply NoDup_bind; [| | done].
  - intros l l' m Hl Hl' Hm Hm'.
    apply elem_of_moves in Hm as (row & Hrow & Ho).
    apply elem_of_moves in Hm' as (row' & Hrow' & Ho').
    assert (row = row') as <- by congruence.
    assert (reference __name__ l = reference __name__ l') as Href by congruence.
    by apply reference_inj in Href.
  - intros l _. unfold moves. apply NoDup_fst_map_to_list.
Qed.

(** ** More on registering the table *)

Lemma move_not_declared : "move" ∉ declared_columns.
Proof. apply (bool_decide_eq_false_1 ("move" ∈ declared_columns)). by vm_compute. Qed.

Lemma column_exist_registered db :
  column_exist "move"
    (drop_constraint "inventory_product_uniq" (super_register (line_table db)))
  = column_exist "move" (line_table db).
Proof.
  unfold column_exist. simpl.
  destruct (decide ("move" ∈ columns (line_table db))) as [Hin | Hout].
  - rewrite !bool_decide_eq_true_2; [done | done | by apply elem_of_union_l].
  - rewrite !bool_decide_eq_false_2; [done | done |].
    intros [? | ?]%elem_of_union; [done | by apply move_not_declared].
Qed.

Lemma register_result db :
  "move" ∉ columns (line_table db) →
  __register__ module_globals db
  = (inr tt,
     mkDatabase
       (drop_constraint "inventory_product_uniq" (super_register (line_table db)))
       (move_table db)).
Proof.
  intros Hout. unfold __register__. rewrite column_exist_registered.
  unfold column_exist. by rewrite bool_decide_eq_false_2.
Qed.

(** X17: on a table without the column [move], [__register__] succeeds: the
    declared columns and the constraint on the quantity are there, the old
    constraint [inventory_product_uniq] is gone, and neither the rows nor
    the stock movements have changed. *)
Theorem register_without_legacy db :
  "move" ∉ columns (line_table db) →
  (__register__ module_globals db).1 = inr tt ∧
  columns (line_table (__register__ module_globals db).2)
    = (columns (line_table db) ∪ declared_columns) ∧
  "check_line_qty_pos" ∈ constraints (line_table (__register__ module_globals db).2) ∧
  ("inventory_product_uniq" ∉ constraints (line_table (__register__ module_globals db).2)) ∧
  rows (line_table (__register__ module_globals db).2) = rows (line_table db) ∧
  move_table (__register__ module_globals db).2 = move_table db.
Proof.
  intros Hout. unfold __register__.
  rewrite column_exist_registered.
  unfold column_exist. rewrite bool_decide_eq_false_2 by done. simpl.
  split_and!; try done.
  - apply elem_of_difference. split.
    + apply elem_of_union_r. by apply elem_of_singleton.
    + intros Heq%elem_of_singleton. done.
  - intros [_ Hn]%elem_of_difference. apply Hn. by apply elem_of_singleton.
Qed.

(** X18: on such a table, running [__register__] a second time changes
    nothing. *)
Theorem register_idempotent db :
  "move" ∉ columns (line_table db) →
  __register__ module_globals (__register__ module_globals db).2
  = (inr tt, (__register__ module_globals db).2).
Proof.
  intros Hout. rewrite (register_result db Hout). simpl.
  rewrite register_result.
  - simpl. f_equal. f_equal.
    unfold drop_constraint, super_register. simpl. f_equal.
    + apply set_eq. intros x. rewrite !elem_of_union. tauto.
    + apply set_eq. intros x.
      rewrite !elem_of_difference, !elem_of_union, !elem_of_difference, !elem_of_union.
      tauto.
  - simpl. intros [? | ?]%elem_of_union; [done | by apply move_not_declared].
Qed.

(** X19: as the module stands, [__register__] changes no stock movement and
    leaves the column [move] where it finds it, whatever the table. *)
Theorem register_keeps_moves db :
  move_table (__register__ module_globals db).2 = move_table db ∧
  column_exist "move" (line_table (__register__ module_globals db).2)
  = column_exist "move" (line_table db).
Proof.
  unfold __register__. rewrite column_exist_registered.
  destruct (column_exist "move" (line_table db)) eqn:Hcol.
  - assert (lookup_global module_globals "Null" = inl (NameError "Null")) as ->
      by by vm_compute.
    simpl. split; [done |]. by rewrite column_exist_registered.
  - simpl. split; [done |]. by rewrite column_exist_registered.
Qed.

(** ** The key of a line *)



(** ** The fields of a line being edited *)

Section FieldsFacts.
Context `{UomService}.
Variable digits : Uom → Z.

(** X21: [on_change_product] agrees with the function fields of a stored line:
    with a product, the unit and the digits are those [get_uom] and
    [get_unit_digits] give for a line of that product; without one, the
    unit is left alone and the digits are the default; and applying it
    twice is applying it once. *)
Theorem on_change_product_fields (self : Form) :
  form_product (on_change_product digits self) = form_product self ∧
  (∀ line, form_product self = Some (product line) →
           form_uom (on_change_product digits self) = Some (uom line) ∧
           form_unit_digits (on_change_product digits self)
           = get_unit_digits digits line) ∧
  (form_product self = None →
   form_uom (on_change_product digits self) = form_uom self ∧
   form_unit_digits (on_change_product digits self) = default_unit_digits) ∧
  on_change_product digits (on_change_product digits self)
  = on_change_product digits self.
Proof.
  unfold on_change_product. simpl.
  destruct (form_product self) as [p |] eqn:Hp; simpl.
  - split_and!; try done. by intros line [= ->].
  - by split_and!.
Qed.

End FieldsFacts.

(** ** The further properties at work on the sample installation *)

Lemma urladdr_agrees_witness :
  on_change_with_urladdr obelisco = urladdr_spec obelisco ∧
  urladdr_spec obelisco = "http://openstreetmap.org/?mlat=-34.6&mlon=-58.4".
Proof.
  split; [| reflexivity].
  apply (urladdr_agrees obelisco).
  - intros d [= <-]. simpl. discriminate.
  - intros d [= <-]. simpl. discriminate.
Defined.

Lemma create_sample_run :
  create [call; call] db0 = (inr [3; 4], (create [call; call] db0).2).
Proof. vm_compute. reflexivity. Qed.

Lemma create_frame_witness :
  length [3; 4] = length [call; call] ∧ NoDup [3; 4] ∧
  (∀ id, id ∈ [3; 4] →
         transport_request db0 !! id = None ∧
         is_Some (transport_request (create [call; call] db0).2 !! id)) ∧
  (∀ id row, transport_request db0 !! id = Some row →
             transport_request (create [call; call] db0).2 !! id = Some row) ∧
  (∀ id, is_Some (transport_request (create [call; call] db0).2 !! id) →
         is_Some (transport_request db0 !! id) ∨ id ∈ [3; 4]).
Proof. exact (create_frame [call; call] db0 [3; 4] _ create_sample_run). Defined.

Lemma create_keeps_values_witness :
  ∃ row, transport_request (create [call; call] db0).2 !! 3 = Some row ∧
         (∀ k x, k ≠ "code" → call !! k = Some x → row !! k = Some x) ∧
         (truthy (get call "code") = true → get row "code" = get call "code").
Proof.
  apply (create_keeps_values [call; call] db0 [3; 4] _ 0%nat call 3 create_sample_run);
    reflexivity.
Defined.

Lemma create_defaults_witness :
  ∃ row, transport_request (create [call; call] db0).2 !! 4 = Some row ∧
         (call !! "request_date" = None →
          row !! "request_date" = Some (VDateTime (clock db0))) ∧
         (call !! "operator" = None →
          row !! "operator" = Some (health_professional db0)).
Proof.
  apply (create_defaults [call; call] db0 [3; 4] _ 1%nat call 4 create_sample_run);
    reflexivity.
Defined.

Lemma db0_codes_unique : codes_unique (transport_request db0).
Proof.
  intros id1 id2 r1 r2 Hl1 Hl2 _ Heq. simpl in Hl1, Hl2.
  apply lookup_insert_Some in Hl1 as [[<- <-] | [_ [<- <-]%lookup_singleton_Some]];
  apply lookup_insert_Some in Hl2 as [[<- <-] | [_ [<- <-]%lookup_singleton_Some]];
    try done; by vm_compute in Heq.
Qed.

Lemma create_codes_unique_witness :
  codes_unique (transport_request db0) ∧
  codes_unique (transport_request (create [call; call] db0).2).
Proof.
  split; [exact db0_codes_unique |].
  exact (create_codes_unique [call; call] db0 [3; 4] _ db0_codes_unique create_sample_run).
Defined.

Lemma create_duplicate_code_witness :
  ∃ e, (create [<["code" := VStr "A1"]> call] db0).1 = inl e.
Proof.
  apply (create_duplicate_code _ db0 0%nat (<["code" := VStr "A1"]> call)).
  - reflexivity.
  - reflexivity.
  - left. exists 1, request1. split; reflexivity.
Defined.

Lemma create_required_witness :
  ∃ e, (create [{[ "address" := VStr "Ruta 5 km 12" ]}] db0).1 = inl e.
Proof.
  apply (create_required _ db0 0%nat {[ "address" := VStr "Ruta 5 km 12" ]});
    reflexivity.
Defined.

Lemma support_keeps_codes_witness :
  codes_unique (transport_request (open_support [1; 2] db0).2) ∧
  codes_unique (transport_request (close_support [1; 2] db0).2).
Proof. exact (support_keeps_codes db0 [1; 2] db0_codes_unique). Defined.

Lemma db0_rows_1 : Forall (λ i, is_Some (transport_request db0 !! i)) [1].
Proof. apply (bool_decide_unpack _). vm_compute. exact I. Qed.

Lemma db0_no_row_99 : ¬ Forall (λ i, is_Some (transport_request db0 !! i)) [1; 99].
Proof.
  apply (bool_decide_eq_false_1
           (Forall (λ i, is_Some (transport_request db0 !! i)) [1; 99])).
  by vm_compute.
Qed.

Lemma support_rows_witness :
  (open_support [1] db0).1 = inr tt ∧
  transport_request (open_support [1] db0).2 !! 1
  = <["state" := VStr "open"]> <$> transport_request db0 !! 1 ∧
  transport_request (open_support [1] db0).2 !! 2 = transport_request db0 !! 2 ∧
  open_support [1; 99] db0 = (inl (UserError "write_error"), db0).
Proof.
  pose proof (proj1 (support_rows db0 [1]) db0_rows_1) as (Hok & _ & Hrows).
  pose proof (proj2 (support_rows db0 [1; 99]) db0_no_row_99) as (Hfail & _).
  split; [exact Hok |].
  split; [exact (proj1 (Hrows 1)) |].
  split; [exact (proj1 (Hrows 2)) | exact Hfail].
Defined.

Lemma buttons_follow_state_witness :
  (∃ row', transport_request (open_support [1] db0).2 !! 1 = Some row' ∧
           invisible "open_support" row' = true ∧
           invisible "close_support" row' = false) ∧
  (∃ row', transport_request (close_support [1] db0).2 !! 1 = Some row' ∧
           invisible "open_support" row' = false ∧
           invisible "close_support" row' = true) ∧
  (invisible "open_support" request1 && invisible "close_support" request1 = false).
Proof.
  apply (buttons_follow_state db0 [1] 1 request1).
  - exact db0_rows_1.
  - by left.
  - reflexivity.
Defined.

Lemma collected_exactly_witness : 2 ∈ collected stock_moves [8; 9].
Proof.
  apply (collected_exactly stock_moves [8; 9] 2).
  exists 8, (mkMoveRow "assigned" (Some "policoop.transport.line,8")).
  split; [by left |]. split; reflexivity.
Defined.

Lemma collected_NoDup_witness : NoDup (collected stock_moves [8; 9]).
Proof.
  apply (collected_NoDup stock_moves [8; 9]).
  apply (bool_decide_unpack (NoDup [8; 9])). vm_compute. exact I.
Defined.

Lemma current_no_move : "move" ∉ columns (line_table current).
Proof. apply (bool_decide_eq_false_1 ("move" ∈ columns (line_table current))). by vm_compute. Qed.

Lemma register_without_legacy_witness :
  (__register__ module_globals current).1 = inr tt ∧
  columns (line_table (__register__ module_globals current).2)
    = (columns (line_table current) ∪ declared_columns) ∧
  "check_line_qty_pos" ∈ constraints (line_table (__register__ module_globals current).2) ∧
  ("inventory_product_uniq" ∉ constraints (line_table (__register__ module_globals current).2)) ∧
  rows (line_table (__register__ module_globals current).2) = rows (line_table current) ∧
  move_table (__register__ module_globals current).2 = move_table current.
Proof. exact (register_without_legacy current current_no_move). Defined.

Lemma register_idempotent_witness :
  __register__ module_globals (__register__ module_globals current).2
  = (inr tt, (__register__ module_globals current).2).
Proof. exact (register_idempotent current current_no_move). Defined.


Lemma on_change_product_fields_witness :
  form_uom (on_change_product sample_digits editing) = Some (uom (line (float_of_Z 5))) ∧
  form_unit_digits (on_change_product sample_digits editing)
  = get_unit_digits sample_digits (line (float_of_Z 5)).
Proof.
  apply (proj1 (proj2 (on_change_product_fields sample_digits editing))
           (line (float_of_Z 5))).
  reflexivity.
Defined.

Lemma create_explicit_witness :
  create [<["code" := VStr "B7"]> call] db_no_config
  = ModelSQL_create [<["code" := VStr "B7"]> call] db_no_config ∧
  (create [<["code" := VStr "B7"]> call] db_no_config).1 = inr [3] ∧
  ir_sequence (create [<["code" := VStr "B7"]> call] db_no_config).2
  = ir_sequence db_no_config.
Proof.
  split; [| split; reflexivity].
  apply (create_explicit [<["code" := VStr "B7"]> call] db_no_config).
  constructor; [reflexivity | constructor].
Defined.
